(** * Ring attention: batch/sequence resharding and the attention module

    A shallow embedding of [ring_attention_pytorch/ring_attention.py].

    The source is dynamically typed Python: a name may hold a tensor, a
    tuple, an integer or [None], and an operation applied to the wrong kind
    of value raises.  Values are therefore modelled by one type [pyval], and
    every operation returns a [result].  The code of one rank is written in
    the monad [comm], whose effects are the collectives the rank takes part
    in; [run_ranks] runs the programs of all ranks in lock step. *)

From Stdlib Require Import ZArith Lia Bool Floats.
From stdpp Require Import base tactics option list.

Set Warnings "-register-all".

Open Scope Z_scope.

(** ** Exceptions and results *)

Inductive exn : Type :=
| AssertionError
| AttributeError
| TypeError
| ValueError
| IndexError
| RuntimeError
| ZeroDivisionError.

Inductive result (A : Type) : Type :=
| Ok (a : A)
| Raise (e : exn).

Arguments Ok {A} a.
Arguments Raise {A} e.

Definition result_bind {A B : Type} (f : A -> result B) (m : result A) : result B :=
  match m with
  | Ok a => f a
  | Raise e => Raise e
  end.

#[global] Instance result_mret : MRet result := fun A a => Ok a.
#[global] Instance result_mbind : MBind result := fun A B f m => result_bind f m.
#[global] Instance result_fmap : FMap result :=
  fun A B f m => result_bind (fun a => Ok (f a)) m.

Definition of_option {A : Type} (e : exn) (o : option A) : result A :=
  match o with Some a => Ok a | None => Raise e end.

(** [assert c] of Python. *)
Definition py_assert (c : bool) : result unit :=
  if c then Ok tt else Raise AssertionError.

(** ** Scalars and tensors *)

(** An element of a tensor: an integer (token ids, sizes), a boolean (masks)
    or a floating-point number (activations, scores, logits). *)
Inductive scalar : Type :=
| SInt (z : Z)
| SBool (b : bool)
| SFloat (x : float).

(** A tensor is a scalar (rank 0) or a stack of tensors along its first axis. *)
Inductive tensor : Type :=
| Sc (s : scalar)
| Nd (ts : list tensor).

Fixpoint ndim (t : tensor) : nat :=
  match t with
  | Sc _ => 0
  | Nd [] => 1
  | Nd (t' :: _) => S (ndim t')
  end.

(** [t.shape], read along the first element of every axis. *)
Fixpoint shape (t : tensor) : list nat :=
  match t with
  | Sc _ => []
  | Nd [] => [0%nat]
  | Nd (t' :: ts) => S (length ts) :: shape t'
  end.

Definition rows (t : tensor) : option (list tensor) :=
  match t with
  | Nd ts => Some ts
  | Sc _ => None
  end.

(** Apply [f] to the list of sub-tensors found at depth [d]. *)
Fixpoint on_axis (d : nat) (f : list tensor -> list tensor) (t : tensor) : tensor :=
  match d, t with
  | _, Sc _ => t
  | O, Nd ts => Nd (f ts)
  | S d', Nd ts => Nd (fmap (on_axis d' f) ts)
  end.

(** Python resolves a negative axis against the rank of the tensor. *)
Definition resolve_axis (t : tensor) (dim : Z) : result nat :=
  let n := Z.of_nat (ndim t) in
  if (0 <=? dim) && (dim <? n) then Ok (Z.to_nat dim)
  else if (dim <? 0) && (0 <=? n + dim) then Ok (Z.to_nat (n + dim))
  else Raise IndexError.

(** Extent of axis [d]. *)
Definition size_at (d : nat) (t : tensor) : nat := nth d (shape t) 0%nat.

Fixpoint map_scalars (f : scalar -> scalar) (t : tensor) : tensor :=
  match t with
  | Sc s => Sc (f s)
  | Nd ts => Nd (fmap (map_scalars f) ts)
  end.

(** ** Tensor operations of the runtime (torch) *)

(** [F.pad(t, (0, p), value = v)]: [p] copies of [v] are appended along the
    last axis; a negative [p] crops instead. *)
Definition F_pad (t : tensor) (p : Z) (v : scalar) : result tensor :=
  match ndim t with
  | O => Raise RuntimeError
  | S d =>
      if 0 <=? p then
        Ok (on_axis d (fun ts => ts ++ replicate (Z.to_nat p) (Sc v)) t)
      else if Z.of_nat (size_at d t) + p <? 0 then Raise RuntimeError
      else Ok (on_axis d (fun ts => take (length ts - Z.to_nat (- p)) ts) t)
  end.

(** [torch.ones_like(t).bool()] *)
Definition ones_like_bool (t : tensor) : tensor :=
  map_scalars (fun _ => SBool true) t.

(** Rows [i] of every tensor of a list, provided each has [n] rows. *)
Fixpoint transpose (n : nat) (rss : list (list tensor)) : option (list (list tensor)) :=
  match rss with
  | [] => Some (replicate n [])
  | rs :: rss' =>
      if decide (length rs = n) then
        cols ← transpose n rss'; Some (zip_with cons rs cols)
      else None
  end.

(** [torch.cat(ts, dim = d)] *)
Fixpoint cat (d : nat) (ts : list tensor) : option tensor :=
  match d with
  | O => rss ← mapM rows ts; Some (Nd (concat rss))
  | S d' =>
      rss ← mapM rows ts;
      cols ← transpose (length (default [] (head rss))) rss;
      Nd <$> mapM (cat d') cols
  end.

(** Number of pieces [t.split(size)] returns for an axis of extent [n]. *)
Definition num_splits (n size : nat) : nat := Nat.max ((n + size - 1) / size) 1.

(** The slice [start : start + len] of axis [d]. *)
Definition narrow (d : nat) (start len : nat) (t : tensor) : tensor :=
  on_axis d (fun ts => take len (drop start ts)) t.

(** [t.split(split_size, dim)] with an integer size: pieces of [split_size]
    along [dim], the last one shorter when the extent is not a multiple. *)
Definition torch_split (t : tensor) (split_size : Z) (dim : Z) : result (list tensor) :=
  d ← resolve_axis t dim;
  let n := size_at d t in
  if split_size <? 0 then Raise RuntimeError
  else if split_size =? 0 then
    (if Nat.eqb n 0 then Ok [t] else Raise RuntimeError)
  else
    let size := Z.to_nat split_size in
    Ok (fmap (fun k => narrow d (k * size) size t) (seq 0 (num_splits n size))).

(** Start offset of every piece, for a list of piece sizes. *)
Fixpoint offsets (start : nat) (sizes : list nat) : list (nat * nat) :=
  match sizes with
  | [] => []
  | n :: sizes' => (start, n) :: offsets (start + n) sizes'
  end.

(** [t.split(sizes, dim)] with a list of sizes, which must add up to the
    extent of the axis. *)
Definition torch_split_with_sizes (t : tensor) (sizes : list Z) (dim : Z)
  : result (list tensor) :=
  d ← resolve_axis t dim;
  if forallb (fun z => 0 <=? z) sizes
     && (fold_right Z.add 0 sizes =? Z.of_nat (size_at d t)) then
    Ok (fmap (fun '(start, n) => narrow d start n t) (offsets 0 (fmap Z.to_nat sizes)))
  else Raise RuntimeError.

(** [t.tolist()] of a one-dimensional integer tensor. *)
Definition tolist (t : tensor) : result (list Z) :=
  match t with
  | Sc _ => Raise TypeError
  | Nd ts =>
      of_option TypeError
        (mapM (fun e => match e with Sc (SInt z) => Some z | _ => None end) ts)
  end.

(** [t[:, :n]] *)
Definition slice_cols (t : tensor) (n : Z) : result tensor :=
  if Nat.ltb (ndim t) 2 then Raise IndexError
  else if 0 <=? n then Ok (on_axis 1 (take (Z.to_nat n)) t)
  else Ok (on_axis 1 (fun ts => take (length ts - Z.to_nat (- n)) ts) t).

(** ** Python values *)

Inductive pyval : Type :=
| PNone
| PInt (z : Z)
| PBool (b : bool)
| PTensor (t : tensor)
| PTuple (vs : list pyval).

(** [exists(v)] of the source. *)
Definition exists_ (v : pyval) : bool :=
  match v with PNone => false | _ => true end.

(** [v.shape[-1]] *)
Definition shape_last (v : pyval) : result Z :=
  match v with
  | PTensor t => of_option IndexError (Z.of_nat <$> last (shape t))
  | _ => Raise AttributeError
  end.

(** [a, b = v] *)
Definition unpack2 (v : pyval) : result (pyval * pyval) :=
  match v with
  | PTuple [a; b] => Ok (a, b)
  | PTuple _ => Raise ValueError
  | PTensor (Nd [a; b]) => Ok (PTensor a, PTensor b)
  | PTensor (Nd _) => Raise ValueError
  | PTensor (Sc _) => Raise TypeError
  | PNone | PInt _ | PBool _ => Raise TypeError
  end.

(** [len(v)] *)
Definition len (v : pyval) : result Z :=
  match v with
  | PTuple vs => Ok (Z.of_nat (length vs))
  | PTensor (Nd ts) => Ok (Z.of_nat (length ts))
  | _ => Raise TypeError
  end.

(** [v.split(size, dim = dim)]: only tensors have the method. *)
Definition py_split (v : pyval) (size : Z) (dim : Z) : result pyval :=
  match v with
  | PTensor t => ts ← torch_split t size dim; Ok (PTuple (PTensor <$> ts))
  | _ => Raise AttributeError
  end.

(** [v.split(sizes.tolist(), dim = dim)] *)
Definition py_split_sizes (v sizes : pyval) (dim : Z) : result pyval :=
  match v, sizes with
  | PTensor t, PTensor s =>
      l ← tolist s; ts ← torch_split_with_sizes t l dim; Ok (PTuple (PTensor <$> ts))
  | _, _ => Raise AttributeError
  end.

(** [v[:, :n]] *)
Definition py_slice_cols (v : pyval) (n : Z) : result pyval :=
  match v with
  | PTensor t => PTensor <$> slice_cols t n
  | _ => Raise TypeError
  end.

(** [v[i]] *)
Definition py_index (v : pyval) (i : nat) : result pyval :=
  match v with
  | PTuple vs => of_option IndexError (vs !! i)
  | PTensor (Nd ts) => of_option IndexError (PTensor <$> ts !! i)
  | _ => Raise TypeError
  end.

(** [torch.ones_like(v).bool()] *)
Definition py_ones_like_bool (v : pyval) : result pyval :=
  match v with
  | PTensor t => Ok (PTensor (ones_like_bool t))
  | _ => Raise TypeError
  end.

(** The integer a value holds. *)
Definition as_int (v : pyval) : result Z :=
  match v with
  | PInt z => Ok z
  | _ => Raise TypeError
  end.

(** [a % b] of Python: the remainder has the sign of [b]. *)
Definition py_mod (a b : Z) : result Z :=
  if b =? 0 then Raise ZeroDivisionError else Ok (a mod b).

(** ** Programs of a rank *)

(** What one rank computes: a value, an exception, or a collective call
    together with what the rank does with its answer. *)
Inductive comm (A : Type) : Type :=
| Done (a : A)
| Fail (e : exn)
| AllGatherE (dim : Z) (t : tensor) (k : pyval -> comm A)
| RingFlashAttnE (args : list pyval) (k : pyval -> comm A).

Arguments Done {A} a.
Arguments Fail {A} e.
Arguments AllGatherE {A} dim t k.
Arguments RingFlashAttnE {A} args k.

Fixpoint comm_bind {A B : Type} (f : A -> comm B) (m : comm A) : comm B :=
  match m with
  | Done a => f a
  | Fail e => Fail e
  | AllGatherE dim t k => AllGatherE dim t (fun v => comm_bind f (k v))
  | RingFlashAttnE args k => RingFlashAttnE args (fun v => comm_bind f (k v))
  end.

#[global] Instance comm_mret : MRet comm := fun A a => Done a.
#[global] Instance comm_mbind : MBind comm := fun A B f m => comm_bind f m.

(** A local computation, as a program. *)
Definition lift {A : Type} (m : result A) : comm A :=
  match m with
  | Ok a => Done a
  | Raise e => Fail e
  end.

(** The ambient distributed context of a rank ([ring_attention_pytorch.ring]). *)
Record dist : Type := {
  is_distributed : bool;
  get_rank : nat;
  get_world_size : nat
}.

(** Modelled from the spec: [AllGather(dim)] of
    [ring_attention_pytorch.distributed], which is not among the sources.
    "all_gather(tensor, axis) -> (gathered, per_rank_sizes)": the tensors of
    all ranks are joined along [dim] in rank order, and every rank receives
    the pair of the joined tensor and the extent each rank contributed. *)
Definition all_gather_spec (dim : Z) (ts : list tensor) : result pyval :=
  match ts with
  | [] => Raise RuntimeError
  | t0 :: _ =>
      d ← resolve_axis t0 dim;
      g ← of_option RuntimeError (cat d ts);
      Ok (PTuple [PTensor g;
                  PTensor (Nd (fmap (fun t => Sc (SInt (Z.of_nat (size_at d t)))) ts))])
  end.

(** Modelled from the spec: the call [AllGather(dim = dim)(v)] as one rank
    sees it.  The collective takes a tensor; any other argument raises
    before anything is communicated. *)
Definition AllGather (dim : Z) (v : pyval) : comm pyval :=
  match v with
  | PTensor t => AllGatherE dim t Done
  | _ => Fail AttributeError
  end.

(** Extent of the first axis of a piece. *)
Definition piece_size (v : pyval) : scalar :=
  match v with
  | PTensor t => SInt (Z.of_nat (size_at 0 t))
  | _ => SInt 0
  end.

(** Modelled from the spec: [split_by_rank] of
    [ring_attention_pytorch.distributed], which is not among the sources.
    "rank_local_slice(split_sequence) -> this_rank's_piece": the piece at the
    index of the rank.  The source unpacks the result as a pair
    ([x, _ = split_by_rank(x)]) and never uses the second component, which
    is the extents of the pieces here. *)
Definition split_by_rank (w : dist) (x : pyval) : result pyval :=
  out ← py_index x (get_rank w);
  match x with
  | PTuple vs => Ok (PTuple [out; PTensor (Nd (fmap (fun v => Sc (piece_size v)) vs))])
  | _ => Ok (PTuple [out; PNone])
  end.

(** ** Running all ranks in lock step *)

Inductive outcome (A : Type) : Type :=
| Finished (vs : list A)
| Raised (e : exn)
| Deadlock
| OutOfFuel.

Arguments Finished {A} vs.
Arguments Raised {A} e.
Arguments Deadlock {A}.
Arguments OutOfFuel {A}.

Definition as_fail {A : Type} (p : comm A) : option exn :=
  match p with Fail e => Some e | _ => None end.

Definition as_done {A : Type} (p : comm A) : option A :=
  match p with Done a => Some a | _ => None end.

Definition as_gather {A : Type} (p : comm A) : option (Z * tensor * (pyval -> comm A)) :=
  match p with AllGatherE dim t k => Some (dim, t, k) | _ => None end.

Definition as_ring {A : Type} (p : comm A) : option (list pyval * (pyval -> comm A)) :=
  match p with RingFlashAttnE args k => Some (args, k) | _ => None end.

(** The first exception raised by a rank, if any. *)
Fixpoint first_fail {A : Type} (ps : list (comm A)) : option exn :=
  match ps with
  | [] => None
  | p :: ps' => match as_fail p with Some e => Some e | None => first_fail ps' end
  end.

Section Ranks.

Context {A : Type}.

(** The ring attention kernel ([ring_flash_attn], not among the sources and
    numeric): from the arguments of all ranks to the output of each. *)
Variable ring_kernel : list (list pyval) -> result (list pyval).

(** One program per rank, in rank order.  An exception on any rank aborts
    the run; the run finishes when every rank has returned; otherwise all
    ranks must be at the same collective, which is then answered. *)
Fixpoint run_ranks (fuel : nat) (ps : list (comm A)) : outcome A :=
  match first_fail ps with
  | Some e => Raised e
  | None =>
      match mapM as_done ps with
      | Some vs => Finished vs
      | None =>
          match fuel with
          | O => OutOfFuel
          | S fuel' =>
              match mapM as_gather ps, mapM as_ring ps with
              | Some gs, _ =>
                  let dim := default 0 (head (fmap (fun g => g.1.1) gs)) in
                  if forallb (fun g => g.1.1 =? dim) gs then
                    match all_gather_spec dim (fmap (fun g => g.1.2) gs) with
                    | Ok v => run_ranks fuel' (fmap (fun g => g.2 v) gs)
                    | Raise e => Raised e
                    end
                  else Deadlock
              | None, Some rs =>
                  match ring_kernel (fmap fst rs) with
                  | Ok outs =>
                      if Nat.eqb (length outs) (length rs) then
                        run_ranks fuel' (zip_with (fun r o => r.2 o) rs outs)
                      else Raised RuntimeError
                  | Raise e => Raised e
                  end
              | None, None => Deadlock
              end
          end
      end
  end.

End Ranks.

(** ** The source: batch to sequence sharding and back *)

(** [divisible_by] *)
Definition divisible_by (num den : Z) : result bool :=
  r ← py_mod num den; Ok (r =? 0).

(** [pad_to_multiple] *)
Definition pad_to_multiple (x : pyval) (length : Z) (pad_value : scalar) : result pyval :=
  seq_len ← shape_last x;
  remainder ← py_mod seq_len length;
  if remainder =? 0 then Ok (PTuple [x; PInt 0])
  else
    let pad_length := length - remainder in
    match x with
    | PTensor t =>
        t' ← F_pad t pad_length pad_value;
        Ok (PTuple [PTensor t'; PInt pad_length])
    | _ => Raise TypeError
    end.

(** [sharded_batch_to_sharded_seq] *)
Definition sharded_batch_to_sharded_seq (w : dist) (x mask : pyval) (seq_size : Z)
  : comm pyval :=
  _ ← lift (py_assert (is_distributed w));
  let orig_x := x in
  seq_len ← lift (shape_last x);
  '(x, pad_length) ← lift (pad_to_multiple x seq_size (SInt 0) ≫= unpack2);
  pad_length ← lift (as_int pad_length);
  mask ← (if 0 <? pad_length then
            mask ← (if negb (exists_ mask) then lift (py_ones_like_bool orig_x)
                    else mret mask);
            lift (pad_to_multiple mask seq_size (SBool false))
          else mret mask);
  '(x, sizes) ← (AllGather 0 x ≫= fun r => lift (unpack2 r));
  mask ← (if exists_ mask then AllGather 0 mask else mret mask);
  x ← lift (py_split x seq_size (-1));
  n ← lift (len x);
  _ ← lift (py_assert (n =? Z.of_nat (get_world_size w)));
  '(x, _) ← lift (split_by_rank w x ≫= unpack2);
  mask ← (if exists_ mask then
            mask ← lift (py_split mask seq_size (-1));
            lift (split_by_rank w mask)
          else mret mask);
  mret (PTuple [PTuple [x; mask]; sizes]).

(** [sharded_seq_to_sharded_batch] *)
Definition sharded_seq_to_sharded_batch (w : dist) (logits sizes : pyval) : comm pyval :=
  '(logits, _) ← (AllGather (-2) logits ≫= fun r => lift (unpack2 r));
  logits ← lift (py_split_sizes logits sizes 0);
  logits ← lift (split_by_rank w logits);
  mret logits.

(** ** Tensors as nested lists *)

Definition scalars_of (t : tensor) : option (list scalar) :=
  ts ← rows t; mapM (fun e => match e with Sc s => Some s | Nd _ => None end) ts.

Definition list2_of (t : tensor) : option (list (list scalar)) :=
  ts ← rows t; mapM scalars_of ts.

Definition list3_of (t : tensor) : option (list (list (list scalar))) :=
  ts ← rows t; mapM list2_of ts.

Definition list4_of (t : tensor) : option (list (list (list (list scalar)))) :=
  ts ← rows t; mapM list3_of ts.

Definition of_list1 (l : list scalar) : tensor := Nd (Sc <$> l).
Definition of_list2 (m : list (list scalar)) : tensor := Nd (of_list1 <$> m).
Definition of_list3 (m : list (list (list scalar))) : tensor := Nd (of_list2 <$> m).
Definition of_list4 (m : list (list (list (list scalar)))) : tensor := Nd (of_list3 <$> m).

Arguments of_list1 : simpl never.
Arguments of_list2 : simpl never.
Arguments of_list3 : simpl never.
Arguments of_list4 : simpl never.

(** A boolean mask [b j] as rows of booleans. *)
Definition bools_of (t : tensor) : option (list (list bool)) :=
  m ← list2_of t;
  mapM (mapM (fun s => match s with SBool b => Some b | _ => None end)) m.

(** Pairs of two lists of the same length. *)
Definition zip_same {A B : Type} (l : list A) (k : list B) : result (list (A * B)) :=
  if Nat.eqb (length l) (length k) then Ok (zip l k) else Raise RuntimeError.

(** [mapM] for results. *)
Fixpoint traverse {A B : Type} (f : A -> result B) (l : list A) : result (list B) :=
  match l with
  | [] => Ok []
  | a :: l' => b ← f a; bs ← traverse f l'; Ok (b :: bs)
  end.

(** ** The source: the attention module *)

(** The fields of a [RingAttention] module that its methods read. *)
Record RingAttention : Type := {
  dim : Z;
  dim_head : Z;
  heads : Z;
  causal : bool;
  ring_attn : bool;
  auto_shard_seq : bool;
  ring_seq_size : Z;
  q_bucket_size : Z;
  k_bucket_size : Z
}.

(** The arguments of [RingAttention.__init__]; [auto_shard_seq] defaults to
    [None]. *)
Record init_args : Type := {
  arg_dim : Z;
  arg_dim_head : Z;
  arg_heads : Z;
  arg_causal : bool;
  arg_q_bucket_size : Z;
  arg_k_bucket_size : Z;
  arg_ring_attn : bool;
  arg_ring_seq_size : Z;
  arg_auto_shard_seq : option bool
}.

(** [torch.ones(n)] and the weight of [nn.Linear(n, m)]: a negative extent is
    refused. *)
Definition alloc (extents : list Z) : result unit :=
  if forallb (fun n => 0 <=? n) extents then Ok tt else Raise RuntimeError.

(** [RingAttention.__init__] *)
Definition RingAttention_init (a : init_args) : result RingAttention :=
  (* self.scale = dim_head ** -0.5 *)
  _ ← (if arg_dim_head a =? 0 then Raise ZeroDivisionError else Ok tt);
  d ← divisible_by (arg_ring_seq_size a) (arg_q_bucket_size a);
  _ ← py_assert d;
  d ← divisible_by (arg_ring_seq_size a) (arg_k_bucket_size a);
  _ ← py_assert d;
  let ring_attn := arg_ring_attn a in
  (* default(auto_shard_seq, ring_attn) *)
  let auto_shard_seq := default ring_attn (arg_auto_shard_seq a) in
  _ ← py_assert (negb (negb ring_attn && auto_shard_seq));
  let dim_inner := arg_dim_head a * arg_heads a in
  (* RMSNorm(dim), nn.Linear(dim, dim_inner * 3), nn.Linear(dim_inner, dim) *)
  _ ← alloc [arg_dim a];
  _ ← alloc [dim_inner * 3; arg_dim a];
  _ ← alloc [arg_dim a; dim_inner];
  Ok {| dim := arg_dim a;
        dim_head := arg_dim_head a;
        heads := arg_heads a;
        causal := arg_causal a;
        ring_attn := ring_attn;
        auto_shard_seq := auto_shard_seq;
        ring_seq_size := arg_ring_seq_size a;
        q_bucket_size := arg_q_bucket_size a;
        k_bucket_size := arg_k_bucket_size a |}.

Section Attention.

(** [-torch.finfo(q.dtype).max] *)
Variable mask_value : scalar.
(** The numeric kernels of the tensor runtime: the contraction over [d] of
    [einx.dot('b h i d, b h j d -> b h i j')] for one pair of rows,
    [einx.softmax('b h i [j]')] for one row, and the contraction over [j]
    of [einx.dot('b h i j, b h j d -> b h i d')] for one row. *)
Variable dotp : list scalar -> list scalar -> scalar.
Variable softmax_row : list scalar -> list scalar.
Variable wsum : list scalar -> list (list scalar) -> list scalar.

(** [sim] for one batch item and head: queries [i d], keys [j d]. *)
Definition similarity (q k : list (list scalar)) : list (list scalar) :=
  fmap (fun qi => fmap (fun kj => dotp qi kj) k) q.

(** [torch.ones((i, j), dtype = torch.bool).triu(j - i + 1)] at row [r],
    column [c]. *)
Definition causal_mask (i j r c : nat) : bool :=
  Z.of_nat j - Z.of_nat i + 1 <=? Z.of_nat c - Z.of_nat r.

(** [einx.where('i j, , b h i j -> b h i j', causal_mask, mask_value, sim)] *)
Definition where_causal (i j : nat) (sim : list (list scalar)) : list (list scalar) :=
  imap (fun r row => imap (fun c s => if causal_mask i j r c then mask_value else s) row) sim.

(** [einx.where('b j, b h i j, -> b h i j', mask, sim, mask_value)] for the
    mask row of one batch item. *)
Definition where_mask (mask : list bool) (sim : list (list scalar)) : list (list scalar) :=
  fmap (fun row => zip_with (fun (m : bool) s => if m then s else mask_value) mask row) sim.

(** The scores handed to the softmax: the [if causal ... elif exists(mask)]
    of the source. *)
Definition masked_sim (causal : bool) (mask : option (list bool))
    (q k : list (list scalar)) : list (list scalar) :=
  let sim := similarity q k in
  if causal then where_causal (length q) (length k) sim
  else match mask with
       | Some m => where_mask m sim
       | None => sim
       end.

(** Attention for one batch item and head. *)
Definition attend (causal : bool) (mask : option (list bool))
    (q k v : list (list scalar)) : list (list scalar) :=
  let attn := fmap softmax_row (masked_sim causal mask q k) in
  fmap (fun a => wsum a v) attn.

(** Shapes the einx expressions put in relation: keys and values have the
    same length [j], and so has the mask row when it is used. *)
Definition check_head (causal : bool) (mask : option (list bool))
    (k v : list (list scalar)) : result unit :=
  if negb (Nat.eqb (length k) (length v)) then Raise RuntimeError
  else match mask with
       | Some m =>
           if causal || Nat.eqb (length m) (length k) then Ok tt
           else Raise RuntimeError
       | None => Ok tt
       end.

Definition attend_heads (causal : bool) (mask : option (list bool))
    (q k v : list (list (list scalar))) : result (list (list (list scalar))) :=
  qk ← zip_same q k;
  qkv ← zip_same qk v;
  traverse (fun '(q, k, v) => _ ← check_head causal mask k v;
                              Ok (attend causal mask q k v)) qkv.

(** [default_attention], on nested lists: [q] is [b h i d], [k] and [v] are
    [b h j d], the mask is [b j]. *)
Definition default_attention_lists (q k v : list (list (list (list scalar))))
    (mask : option (list (list bool))) (causal : bool)
  : result (list (list (list (list scalar)))) :=
  qk ← zip_same q k;
  qkv ← zip_same qk v;
  match mask with
  | None => traverse (fun '(q, k, v) => attend_heads causal None q k v) qkv
  | Some m =>
      if causal then traverse (fun '(q, k, v) => attend_heads causal None q k v) qkv
      else
        qkvm ← zip_same qkv m;
        traverse (fun '(q, k, v, mb) => attend_heads causal (Some mb) q k v) qkvm
  end.

(** [default_attention] *)
Definition default_attention (q k v mask : pyval) (causal : bool) : result pyval :=
  match q, k, v with
  | PTensor q, PTensor k, PTensor v =>
      q ← of_option RuntimeError (list4_of q);
      k ← of_option RuntimeError (list4_of k);
      v ← of_option RuntimeError (list4_of v);
      mask ← match mask with
             | PNone => Ok None
             | PTensor m =>
                 if causal then Ok None
                 else Some <$> of_option RuntimeError (bools_of m)
             | _ => if causal then Ok None else Raise TypeError
             end;
      out ← default_attention_lists q k v mask causal;
      Ok (PTensor (of_list4 out))
  | _, _, _ => Raise AttributeError
  end.

(** The learned projections, which belong to the tensor runtime: lines
    213-216 of the source ([to_qkv], the split into [heads] heads and the
    scaling of [q] by [dim_head ** -0.5]) and lines 232-233 (the heads
    recombined, [to_out]). *)
Variable project_qkv : Z -> Z -> pyval -> result (pyval * pyval * pyval).
Variable project_out : pyval -> result pyval.

(** [RingAttention.forward] *)
Definition forward (w : dist) (self : RingAttention) (x mask : pyval) : comm pyval :=
  let ring_attn := ring_attn self && is_distributed w in
  let auto_shard_seq := auto_shard_seq self && is_distributed w in
  seq_len ← lift (shape_last x);
  '(x, mask, batch_sizes) ←
    (if auto_shard_seq then
       r ← sharded_batch_to_sharded_seq w x mask (ring_seq_size self);
       '(xm, batch_sizes) ← lift (unpack2 r);
       '(x, mask) ← lift (unpack2 xm);
       mret (x, mask, batch_sizes)
     else mret (x, mask, PNone));
  '(q, k, v) ← lift (project_qkv (heads self) (dim_head self) x);
  out ← (if negb (is_distributed w) then
           lift (default_attention q k v mask (causal self))
         else
           RingFlashAttnE [q; k; v; mask; PBool (causal self);
                           PInt (q_bucket_size self); PInt (k_bucket_size self);
                           PBool ring_attn] Done);
  out ← lift (project_out out);
  out ← (if auto_shard_seq then
           r ← sharded_seq_to_sharded_batch w out batch_sizes;
           '(out, _) ← lift (unpack2 r);
           lift (py_slice_cols out seq_len)
         else mret out);
  mret out.

End Attention.

(** ** The source: the transformer around the module *)

Section Transformer.

(** Lines 320-326 of the source: the token embedding, the layers and the
    projection to logits, from the (sharded) tokens and mask. *)
Variable transformer_body : pyval -> pyval -> comm pyval.

(** [RingTransformer.forward], for a transformer built with the given
    [auto_shard_seq] and [ring_seq_size]. *)
Definition RingTransformer_forward (w : dist) (auto_shard_seq : bool)
    (ring_seq_size : Z) (x mask : pyval) : comm pyval :=
  seq_len ← lift (shape_last x);
  let auto_shard_seq := auto_shard_seq && is_distributed w in
  '(x, mask, batch_sizes) ←
    (if auto_shard_seq then
       r ← sharded_batch_to_sharded_seq w x mask ring_seq_size;
       '(xm, batch_sizes) ← lift (unpack2 r);
       '(x, mask) ← lift (unpack2 xm);
       mret (x, mask, batch_sizes)
     else mret (x, mask, PNone));
  logits ← transformer_body x mask;
  logits ← (if auto_shard_seq then
              r ← sharded_seq_to_sharded_batch w logits batch_sizes;
              '(logits, _) ← lift (unpack2 r);
              lift (py_slice_cols logits seq_len)
            else mret logits);
  mret logits.

End Transformer.

(** A body that works position by position: every token becomes the feature
    vector [g] gives it, so that [b n] tokens become [b n d] features. *)
Fixpoint embed (g : scalar -> list scalar) (t : tensor) : tensor :=
  match t with
  | Sc s => of_list1 (g s)
  | Nd ts => Nd (fmap (embed g) ts)
  end.

Definition positionwise (g : scalar -> list scalar) (x mask : pyval) : comm pyval :=
  match x with
  | PTensor t => Done (PTensor (embed g t))
  | _ => Fail TypeError
  end.

(** ** The source: construction and layers of the transformer *)

(** The fields of a [RingTransformer] that its methods read. *)
Record RingTransformer : Type := {
  t_ring_attn : bool;
  t_ring_seq_size : Z;
  t_auto_shard_seq : bool;
  t_layers : list RingAttention
}.

(** The arguments of [RingTransformer.__init__]; [ff_mult] is an integer,
    and [auto_shard_seq] defaults to [None]. *)
Record transformer_args : Type := {
  targ_num_tokens : Z;
  targ_dim : Z;
  targ_depth : Z;
  targ_causal : bool;
  targ_dim_head : Z;
  targ_heads : Z;
  targ_ff_mult : Z;
  targ_q_bucket_size : Z;
  targ_k_bucket_size : Z;
  targ_ring_attn : bool;
  targ_ring_seq_size : Z;
  targ_auto_shard_seq : option bool
}.

(** [FeedForward(dim, mult)]: the parameters of [RMSNorm(dim)],
    [nn.Linear(dim, dim_inner)] and [nn.Linear(dim_inner, dim)]. *)
Definition FeedForward (dim mult : Z) : result unit :=
  let dim_inner := dim * mult in
  _ ← alloc [dim];
  _ ← alloc [dim_inner; dim];
  alloc [dim; dim_inner].

(** The arguments [RingTransformer.__init__] builds every attention layer
    with. *)
Definition layer_args (a : transformer_args) : init_args :=
  {| arg_dim := targ_dim a;
     arg_dim_head := targ_dim_head a;
     arg_heads := targ_heads a;
     arg_causal := targ_causal a;
     arg_q_bucket_size := targ_q_bucket_size a;
     arg_k_bucket_size := targ_k_bucket_size a;
     arg_ring_attn := targ_ring_attn a;
     arg_ring_seq_size := targ_ring_seq_size a;
     arg_auto_shard_seq := Some false |}.

(** [RingTransformer.__init__] *)
Definition RingTransformer_init (a : transformer_args) : result RingTransformer :=
  let ring_attn := targ_ring_attn a in
  (* default(auto_shard_seq, ring_attn) *)
  let auto_shard_seq := default ring_attn (targ_auto_shard_seq a) in
  _ ← py_assert (negb (negb ring_attn && auto_shard_seq));
  (* nn.Embedding(num_tokens, dim) *)
  _ ← alloc [targ_num_tokens a; targ_dim a];
  (* for _ in range(depth) *)
  layers ← traverse (fun _ : nat =>
                       attn ← RingAttention_init (layer_args a);
                       _ ← FeedForward (targ_dim a) (targ_ff_mult a);
                       Ok attn)
             (seq 0 (Z.to_nat (targ_depth a)));
  (* RMSNorm(dim), nn.Linear(dim, num_tokens) *)
  _ ← alloc [targ_dim a];
  _ ← alloc [targ_num_tokens a; targ_dim a];
  Ok {| t_ring_attn := ring_attn;
        t_ring_seq_size := targ_ring_seq_size a;
        t_auto_shard_seq := auto_shard_seq;
        t_layers := layers |}.

Section Layers.

Variable mask_value : scalar.
Variable dotp : list scalar -> list scalar -> scalar.
Variable softmax_row : list scalar -> list scalar.
Variable wsum : list scalar -> list (list scalar) -> list scalar.
(** The learned parts of the transformer, which belong to the tensor
    runtime: the token embedding, the projections of the attention of layer
    [i] and its feed-forward block, the sum of two tensors, and the
    projection to logits. *)
Variable token_emb : pyval -> result pyval.
Variable layer_qkv : nat -> Z -> Z -> pyval -> result (pyval * pyval * pyval).
Variable layer_out : nat -> pyval -> result pyval.
Variable layer_ff : nat -> pyval -> result pyval.
Variable tensor_add : pyval -> pyval -> result pyval.
Variable to_logits : pyval -> result pyval.

(** Lines 322-324 of the source: [for attn, ff in self.layers], from layer
    [i] on. *)
Fixpoint transformer_layers (w : dist) (i : nat) (layers : list RingAttention)
    (x mask : pyval) : comm pyval :=
  match layers with
  | [] => mret x
  | attn :: layers' =>
      a ← forward mask_value dotp softmax_row wsum (layer_qkv i) (layer_out i) w attn x mask;
      x ← lift (tensor_add a x);
      f ← lift (layer_ff i x);
      x ← lift (tensor_add f x);
      transformer_layers w (S i) layers' x mask
  end.

(** Lines 320-326 of the source. *)
Definition transformer_net (w : dist) (layers : list RingAttention) (x mask : pyval)
  : comm pyval :=
  x ← lift (token_emb x);
  x ← transformer_layers w 0 layers x mask;
  lift (to_logits x).

(** [RingTransformer.forward] of the transformer [self]. *)
Definition RingTransformer_call (w : dist) (self : RingTransformer) (x mask : pyval)
  : comm pyval :=
  RingTransformer_forward (transformer_net w (t_layers self)) w
    (t_auto_shard_seq self) (t_ring_seq_size self) x mask.

End Layers.

(** * Vocabulary of the statements *)

(** ** Scores *)

Section Scores.

Variable mask_value : scalar.
Variable dotp : list scalar -> list scalar -> scalar.

(** The score of query [r] and key [c] after masking. *)
Definition score (causal : bool) (mask : option (list bool))
    (q k : list (list scalar)) (r c : nat) : option scalar :=
  row ← masked_sim mask_value dotp causal mask q k !! r; row !! c.

(** The claim C4 as stated: a score is the masking value wherever the mask
    entry of the key is [False], and also, with the causal flag, wherever
    the key index exceeds the query index. *)
Definition both_maskings_applied (causal : bool) (m : list bool)
    (q k : list (list scalar)) : Prop :=
  forall r c, (r < length q)%nat -> (c < length k)%nat ->
    m !! c = Some false \/ (causal = true /\ (r < c)%nat) ->
    score causal (Some m) q k r c = Some mask_value.

End Scores.

(** ** Configurations *)

(** The layer sizes and block sizes of a configuration are positive. *)
Definition positive_sizes (a : init_args) : Prop :=
  0 < arg_dim a /\ 0 < arg_dim_head a /\ 0 < arg_heads a /\
  0 < arg_q_bucket_size a /\ 0 < arg_k_bucket_size a.

(** The three configuration errors. *)
Definition config_error (a : init_args) : Prop :=
  ~ (arg_q_bucket_size a | arg_ring_seq_size a) \/
  ~ (arg_k_bucket_size a | arg_ring_seq_size a) \/
  (arg_auto_shard_seq a = Some true /\ arg_ring_attn a = false).

(** The claim C8 as stated: construction fails exactly on a configuration
    error. *)
Definition fails_iff_config_error (a : init_args) : Prop :=
  (exists e, RingAttention_init a = Raise e) <-> config_error a.

(** The default configuration of the source, with ring attention on. *)
Definition default_args : init_args :=
  {| arg_dim := 512; arg_dim_head := 64; arg_heads := 8; arg_causal := false;
     arg_q_bucket_size := 512; arg_k_bucket_size := 512; arg_ring_attn := true;
     arg_ring_seq_size := 512; arg_auto_shard_seq := None |}.

(** The default configuration with a head dimension of zero. *)
Definition zero_head_args : init_args :=
  {| arg_dim := 512; arg_dim_head := 0; arg_heads := 8; arg_causal := false;
     arg_q_bucket_size := 512; arg_k_bucket_size := 512; arg_ring_attn := true;
     arg_ring_seq_size := 512; arg_auto_shard_seq := None |}.

(** A module with ring attention and auto-sharding on, shard size one. *)
Definition module_1 : RingAttention :=
  {| dim := 2; dim_head := 2; heads := 1; causal := false; ring_attn := true;
     auto_shard_seq := true; ring_seq_size := 1; q_bucket_size := 1;
     k_bucket_size := 1 |}.

(** ** Ranks and worlds *)

(** The tensor a rank hands to the gather it waits at, and what the rank
    does with the answer. *)
Definition gather_tensor {A : Type} (p : comm A) : tensor :=
  match p with
  | AllGatherE _ t _ => t
  | _ => Sc (SInt 0)
  end.

Definition gather_cont {A : Type} (p : comm A) (v : pyval) : comm A :=
  match p with
  | AllGatherE _ _ k => k v
  | _ => p
  end.

(** The rank waits at a gather along [dim]. *)
Definition at_gather {A : Type} (dim : Z) (p : comm A) : Prop :=
  exists t k, p = AllGatherE dim t k.

(** [returns Q p]: every value the program [p] can return satisfies [Q],
    whatever pair of tensors a gather answers and whatever the ring kernel
    answers. *)
Fixpoint returns {A : Type} (Q : A -> Prop) (p : comm A) : Prop :=
  match p with
  | Done a => Q a
  | Fail _ => True
  | AllGatherE _ _ k =>
      forall g sizes, returns Q (k (PTuple [PTensor g; PTensor sizes]))
  | RingFlashAttnE _ k => forall v, returns Q (k v)
  end.

(** Rank [r] of a distributed run of [W] ranks. *)
Definition rank_ctx (W r : nat) : dist :=
  {| is_distributed := true; get_rank := r; get_world_size := W |}.

(** A single process, which is not distributed. *)
Definition single_process : dist :=
  {| is_distributed := false; get_rank := 0; get_world_size := 1 |}.

(** A batch of token rows, each of length [L]; the batch is not empty. *)
Definition token_rows (L : nat) (m : list (list scalar)) : Prop :=
  m <> [] /\ Forall (fun row => length row = L) m.

(** Piece [r] of size [size] of a row. *)
Definition chunk (size r : nat) (row : list scalar) : list scalar :=
  take size (drop (r * size) row).

(** The batch extents the ranks contribute, as the collective reports them. *)
Definition batch_sizes (xs : list (list (list scalar))) : tensor :=
  Nd ((fun m => Sc (SInt (Z.of_nat (length m)))) <$> xs).

(** Every rank calls [sharded_batch_to_sharded_seq] on its own token matrix,
    without a mask: [xs] holds the matrices in rank order. *)
Definition shard_world (size : Z) (xs : list (list (list scalar))) : list (comm pyval) :=
  imap (fun r m => sharded_batch_to_sharded_seq (rank_ctx (length xs) r)
                     (PTensor (of_list2 m)) PNone size) xs.

(** The features of a token matrix, position by position. *)
Definition features (g : scalar -> list scalar) (m : list (list scalar))
  : list (list (list scalar)) :=
  (fun row : list scalar => g <$> row) <$> m.

(** The shard of the features rank [k] holds after the forward conversion. *)
Definition feature_shard (g : scalar -> list scalar) (size : nat)
    (M : list (list scalar)) (k : nat) : tensor :=
  embed g (of_list2 (chunk size k <$> M)).

(** Every rank calls [RingTransformer.forward] with auto-sharding and the
    position-wise body [g] on its own token matrix, without a mask. *)
Definition transformer_world (g : scalar -> list scalar) (size : Z)
    (xs : list (list (list scalar))) : list (comm pyval) :=
  imap (fun r m => RingTransformer_forward (positionwise g) (rank_ctx (length xs) r)
                     true size (PTensor (of_list2 m)) PNone) xs.

(** The round trip of C1: every rank gets [g] of its own input back. *)
Definition roundtrip_reconstructs (ring_kernel : list (list pyval) -> result (list pyval))
    (g : scalar -> list scalar) (size : Z) (xs : list (list (list scalar))) : Prop :=
  run_ranks ring_kernel 2 (transformer_world g size xs)
  = Finished ((fun m => PTensor (embed g (of_list2 m))) <$> xs).

(** ** Concrete inputs *)

(** No ring kernel: the conversions alone never call it. *)
Definition no_ring : list (list pyval) -> result (list pyval) :=
  fun _ => Raise RuntimeError.

(** [x[..., None]]: every token becomes a feature vector of length one. *)
Definition unsqueeze (s : scalar) : list scalar := [s].

(** A row of token ids. *)
Definition tokens (l : list Z) : list scalar := SInt <$> l.

(** Two ranks, each with one sequence of length three. *)
Definition world_3 : list (list (list scalar)) :=
  [[tokens [1; 2; 3]]; [tokens [4; 5; 6]]].

(** Two ranks, with one and two sequences of length four. *)
Definition world_4 : list (list (list scalar)) :=
  [[tokens [1; 2; 3; 4]]; [tokens [5; 6; 7; 8]; tokens [9; 10; 11; 12]]].

(** Two ranks, each with one sequence of length six. *)
Definition world_6 : list (list (list scalar)) :=
  [[tokens [1; 2; 3; 4; 5; 6]]; [tokens [7; 8; 9; 10; 11; 12]]].

(** Four ranks, each with one sequence of length 1000. *)
Definition world_1000 : list (list (list scalar)) :=
  replicate 4 [replicate 1000 (SInt 7)].

(** The ranks of [world_4], each with an all-[True] mask. *)
Definition masked_world_4 : list (comm pyval) :=
  imap (fun r m => sharded_batch_to_sharded_seq (rank_ctx 2 r) (PTensor (of_list2 m))
                     (PTensor (ones_like_bool (of_list2 m))) 2) world_4.

(** One batch item, four positions, two features: shape [1, 4, 2]. *)
Definition x_1_4_2 : tensor :=
  of_list3 [replicate 4 [SFloat 1%float; SFloat 2%float]].

(** ** Numeric kernels over double-precision floats *)

(** The float a scalar holds. *)
Definition as_float (s : scalar) : float :=
  match s with
  | SFloat x => x
  | _ => nan
  end.

(** A feature vector of length one. *)
Definition row1 (x : float) : list scalar := [SFloat x].

(** [-torch.finfo(torch.float64).max] *)
Definition float64_mask_value : scalar := SFloat (-0x1.fffffffffffffp+1023)%float.

(** The inner product of two rows, summed from the right. *)
Definition float_dot (a b : list scalar) : scalar :=
  SFloat (fold_right (fun '(x, y) acc => as_float x * as_float y + acc)%float
            0%float (zip a b)).

(** The largest entry of a row. *)
Definition float_max (xs : list float) : float :=
  fold_right (fun x m => if PrimFloat.ltb m x then x else m) neg_infinity xs.

(** The exponential where its double-precision value is known exactly: one at
    zero, and zero below [-746], where it underflows.  The runs over floats
    in this file evaluate it nowhere else. *)
Definition exp_known (x : float) : float :=
  if PrimFloat.eqb x 0 then 1%float
  else if PrimFloat.ltb x (-746)%float then 0%float
  else nan.

(** The softmax of a row, shifted by its maximum. *)
Definition float_softmax (row : list scalar) : list scalar :=
  let xs := as_float <$> row in
  let m := float_max xs in
  let e := (fun x => exp_known (x - m)%float) <$> xs in
  let z := fold_right PrimFloat.add 0%float e in
  (fun x => SFloat (x / z)%float) <$> e.

(** The sum of the value rows weighted by a row of attention weights. *)
Definition float_wsum (a : list scalar) (v : list (list scalar)) : list scalar :=
  fold_right
    (fun '(aj, vj) acc =>
       zip_with (fun x y => SFloat (as_float aj * as_float x + as_float y)%float) vj acc)
    (replicate (length (default [] (head v))) (SFloat 0%float))
    (zip a v).

(** The claim C5 as stated, for one batch item and head: keys and values that
    agree at the positions up to [r] give the same output at query [r]. *)
Definition causal_output_depends_on_earlier_only
    (q k k' v v' : list (list scalar)) (r : nat) : Prop :=
  length k = length k' -> length v = length v' ->
  (forall c, (c <= r)%nat -> k !! c = k' !! c /\ v !! c = v' !! c) ->
  attend float64_mask_value float_dot float_softmax float_wsum true None q k v !! r
  = attend float64_mask_value float_dot float_softmax float_wsum true None q k' v' !! r.

(** ** Pass-through kernels *)

(** Kernels for runs in which the numbers do not matter: the projections
    hand their input on, the softmax and the weighted sum return the scores,
    and the ring kernel answers every rank with its own queries. *)
Definition pass_qkv (heads dim_head : Z) (x : pyval) : result (pyval * pyval * pyval) :=
  Ok (x, x, x).
Definition pass_out (out : pyval) : result pyval := Ok out.
Definition pass_softmax (row : list scalar) : list scalar := row.
Definition pass_wsum (a : list scalar) (v : list (list scalar)) : list scalar := a.
Definition pass_ring (args : list (list pyval)) : result (list pyval) :=
  Ok ((fun a => default PNone (head a)) <$> args).

(** [forward] of [module_1] on [x_1_4_2], with the pass-through kernels. *)
Definition forward_1_4_2 (w : dist) : comm pyval :=
  forward float64_mask_value float_dot pass_softmax pass_wsum pass_qkv pass_out
    w module_1 (PTensor x_1_4_2) PNone.

(** What two ranks return for the input [x_1_4_2] each. *)
Definition outs_1_4_2 : list pyval :=
  Eval vm_compute in
    match run_ranks pass_ring 3 [forward_1_4_2 (rank_ctx 2 0); forward_1_4_2 (rank_ctx 2 1)] with
    | Finished outs => outs
    | _ => []
    end.

(** ** Collectives a program takes part in *)

(** The program never waits at an all-gather, whatever the ring kernel
    answers. *)
Fixpoint no_gather {A : Type} (p : comm A) : Prop :=
  match p with
  | Done _ | Fail _ => True
  | AllGatherE _ _ _ => False
  | RingFlashAttnE _ k => forall v, no_gather (k v)
  end.

(** The program takes part in no collective at all. *)
Definition local {A : Type} (p : comm A) : Prop :=
  match p with
  | Done _ | Fail _ => True
  | _ => False
  end.

(** ** Transformers *)

(** The extents of a transformer configuration are positive; the vocabulary
    and the feed-forward multiplier may be zero. *)
Definition positive_transformer_sizes (a : transformer_args) : Prop :=
  0 <= targ_num_tokens a /\ 0 < targ_dim a /\ 0 < targ_dim_head a /\
  0 < targ_heads a /\ 0 <= targ_ff_mult a /\
  0 < targ_q_bucket_size a /\ 0 < targ_k_bucket_size a.

(** The configuration errors of a transformer: auto-sharding asked for
    without ring attention, or, when there is at least one layer, a block
    size that does not divide the shard size. *)
Definition transformer_config_error (a : transformer_args) : Prop :=
  (targ_auto_shard_seq a = Some true /\ targ_ring_attn a = false) \/
  (0 < targ_depth a /\
   (~ (targ_q_bucket_size a | targ_ring_seq_size a) \/
    ~ (targ_k_bucket_size a | targ_ring_seq_size a))).

(** A transformer of [depth] layers with ring attention and shard size
    [size], blocks of one. *)
Definition small_transformer (depth size : Z) : transformer_args :=
  {| targ_num_tokens := 16; targ_dim := 2; targ_depth := depth; targ_causal := false;
     targ_dim_head := 2; targ_heads := 1; targ_ff_mult := 4;
     targ_q_bucket_size := 1; targ_k_bucket_size := 1; targ_ring_attn := true;
     targ_ring_seq_size := size; targ_auto_shard_seq := None |}.

(** The layer [small_transformer] is built of. *)
Definition small_layer (size : Z) : RingAttention :=
  {| dim := 2; dim_head := 2; heads := 1; causal := false; ring_attn := true;
     auto_shard_seq := false; ring_seq_size := size; q_bucket_size := 1;
     k_bucket_size := 1 |}.

(** What [RingTransformer.__init__] returns for [small_transformer 2 size]. *)
Definition small_model (size : Z) : RingTransformer :=
  {| t_ring_attn := true; t_ring_seq_size := size; t_auto_shard_seq := true;
     t_layers := [small_layer size; small_layer size] |}.

(** Pass-through parts of a transformer: the embedding, the feed-forward
    blocks and the projection to logits hand their input on, and the sum of
    two tensors returns the first. *)
Definition pass_layer_qkv (i : nat) := pass_qkv.
Definition pass_layer_out (i : nat) := pass_out.
Definition pass_layer_ff (i : nat) := pass_out.
Definition pass_add (a x : pyval) : result pyval := Ok a.

(** ** Shards along the sequence axis *)

(** The shards [Ys] of the ranks, each [b n_k d], joined along the sequence
    axis: row [b] of the result is the rows [b] of the shards, one after the
    other in rank order. *)
Definition join_seq (B : nat) (Ys : list (list (list (list scalar))))
  : list (list (list scalar)) :=
  (fun b => concat ((fun Y : list (list (list scalar)) => default [] (Y !! b)) <$> Ys))
    <$> seq 0 B.

(** The batch extents [outs] have, as a tensor of sizes. *)
Definition batch_sizes3 (outs : list (list (list (list scalar)))) : tensor :=
  Nd ((fun o => Sc (SInt (Z.of_nat (length o)))) <$> outs).

(** Every rank calls [sharded_seq_to_sharded_batch] on its own shard, with
    the batch extents of [outs]. *)
Definition unshard_world (Ys outs : list (list (list (list scalar)))) : list (comm pyval) :=
  imap (fun r Y => sharded_seq_to_sharded_batch (rank_ctx (length Ys) r)
                     (PTensor (of_list3 Y)) (PTensor (batch_sizes3 outs))) Ys.

(** * Properties *)

(** ** Construction of the module *)

Lemma divisible_by_spec (num den : Z) :
  0 < den ->
  divisible_by num den = Ok true /\ (den | num) \/
  divisible_by num den = Ok false /\ ~ (den | num).
Proof.
  intros Hden. unfold divisible_by, py_mod.
  destruct (Z.eqb_spec den 0) as [->|_]; [lia|]. simpl.
  destruct (Z.eqb_spec (num mod den) 0) as [Hz|Hz].
  - left. split; [done|]. apply Z.mod_divide; [lia|done].
  - right. split; [done|]. intros Hd. apply Hz. apply Z.mod_divide; [lia|done].
Qed.

Lemma alloc_nonneg (extents : list Z) :
  Forall (fun n => 0 <= n) extents -> alloc extents = Ok tt.
Proof.
  intros H. unfold alloc.
  replace (forallb (fun n => 0 <=? n) extents) with true; [done|].
  symmetry. apply forallb_forall. intros n Hn.
  rewrite Forall_forall in H. apply Z.leb_le, H. by apply list_elem_of_In.
Qed.

(** C8, as amended: for a configuration with positive sizes,
    [RingAttention.__init__]
    raises (an [AssertionError], before any module exists) exactly when the
    ring shard size is not divisible by the query block size, or not by the
    key block size, or auto-sharding is asked for without ring attention;
    otherwise it returns the module. *)
Theorem RingAttention_init_fails_iff (a : init_args) :
  positive_sizes a ->
  (RingAttention_init a = Raise AssertionError <-> config_error a) /\
  (~ config_error a -> exists m, RingAttention_init a = Ok m).
Proof.
  intros (Hdim & Hhead & Hheads & Hq & Hk).
  assert (Hinit : RingAttention_init a = Raise AssertionError /\ config_error a
                  \/ (exists m, RingAttention_init a = Ok m) /\ ~ config_error a).
  { unfold RingAttention_init, config_error.
    destruct (Z.eqb_spec (arg_dim_head a) 0) as [?|_]; [lia|].
    destruct (divisible_by_spec (arg_ring_seq_size a) _ Hq) as [[-> Hdq]|[-> Hdq]];
      simpl; [|left; split; [done|by left]].
    destruct (divisible_by_spec (arg_ring_seq_size a) _ Hk) as [[-> Hdk]|[-> Hdk]];
      simpl; [|left; split; [done|by right; left]].
    destruct (arg_ring_attn a) eqn:Hring, (arg_auto_shard_seq a) as [[]|] eqn:Hauto;
      simpl; try (left; split; [done|right; right; done]);
      (rewrite !alloc_nonneg by (repeat constructor; nia); simpl;
       right; split; [eauto|]; intros [?|[?|[? ?]]]; done). }
  split.
  - split.
    + intros Hr. destruct Hinit as [[_ ?]|[[m Hm] _]]; [done|congruence].
    + intros Hc. destruct Hinit as [[? _]|[_ ?]]; done.
  - intros Hc. destruct Hinit as [[_ ?]|[? _]]; done.
Qed.

Lemma RingAttention_init_fails_iff_witness :
  positive_sizes default_args /\
  (RingAttention_init default_args = Raise AssertionError <-> config_error default_args) /\
  (~ config_error default_args -> exists m, RingAttention_init default_args = Ok m).
Proof.
  assert (H : positive_sizes default_args) by (unfold positive_sizes; simpl; lia).
  split; [exact H|]. exact (RingAttention_init_fails_iff default_args H).
Defined.

(** C8 fails as stated: with a head dimension of zero the shard size is
    divisible by both block sizes and auto-sharding comes with ring
    attention, yet construction fails, on [dim_head ** -0.5], with a
    [ZeroDivisionError]. *)
Lemma RingAttention_init_fails_iff_counterexample :
  RingAttention_init zero_head_args = Raise ZeroDivisionError /\
  ~ config_error zero_head_args /\
  ~ fails_iff_config_error zero_head_args.
Proof.
  assert (Hno : ~ config_error zero_head_args).
  { unfold config_error. simpl. intros [H|[H|[H _]]]; [| |discriminate];
      apply H; exists 1; lia. }
  split; [reflexivity|]. split; [exact Hno|].
  intros [H _]. apply Hno, H. eexists. reflexivity.
Qed.

(** ** The scores of the single-device attention *)

Section AttentionProperties.

Variable mask_value : scalar.
Variable dotp : list scalar -> list scalar -> scalar.
Variable softmax_row : list scalar -> list scalar.
Variable wsum : list scalar -> list (list scalar) -> list scalar.

Lemma similarity_lookup q k r c qr kc :
  q !! r = Some qr -> k !! c = Some kc ->
  (row ← similarity dotp q k !! r; row !! c) = Some (dotp qr kc).
Proof.
  intros Hq Hk. unfold similarity.
  rewrite list_lookup_fmap, Hq. simpl. by rewrite list_lookup_fmap, Hk.
Qed.

Lemma where_causal_lookup i j sim r c s :
  (row ← sim !! r; row !! c) = Some s ->
  (row ← where_causal mask_value i j sim !! r; row !! c)
  = Some (if causal_mask i j r c then mask_value else s).
Proof.
  unfold where_causal. rewrite list_lookup_imap.
  destruct (sim !! r) as [row|]; simpl; [|done].
  rewrite list_lookup_imap. by intros ->.
Qed.

Lemma where_mask_lookup (m : list bool) sim r c s (b : bool) :
  (row ← sim !! r; row !! c) = Some s -> m !! c = Some b ->
  (row ← where_mask mask_value m sim !! r; row !! c)
  = Some (if b then s else mask_value).
Proof.
  unfold where_mask. rewrite list_lookup_fmap.
  destruct (sim !! r) as [row|]; simpl; [|done].
  intros Hs Hm. rewrite lookup_zip_with, Hm. simpl. by rewrite Hs.
Qed.

(** C4, as amended: with the causal flag set, the score of query [r] and key
    [c] is the masking value exactly when [c - r >= j - i + 1] (for [i]
    queries and [j] keys; [c > r] when [i = j]) and the raw score
    otherwise, whatever the validity mask says; without the causal flag it
    is the masking value exactly when the mask entry of the key is [False],
    and the raw score when no mask is given. *)
Theorem masked_sim_entry (causal : bool) (mask : option (list bool))
    (q k : list (list scalar)) (r c : nat) (qr kc : list scalar) :
  q !! r = Some qr -> k !! c = Some kc ->
  score mask_value dotp causal mask q k r c =
    if causal then
      Some (if Z.of_nat (length k) - Z.of_nat (length q) + 1 <=? Z.of_nat c - Z.of_nat r
            then mask_value else dotp qr kc)
    else match mask with
         | Some m => b ← m !! c; Some (if b : bool then dotp qr kc else mask_value)
         | None => Some (dotp qr kc)
         end.
Proof.
  intros Hq Hk. unfold score, masked_sim.
  pose proof (similarity_lookup q k r c qr kc Hq Hk) as Hsim.
  destruct causal.
  - by rewrite (where_causal_lookup _ _ _ _ _ _ Hsim).
  - destruct mask as [m|]; [|done].
    destruct (m !! c) as [b|] eqn:Hm; simpl.
    + by rewrite (where_mask_lookup _ _ _ _ _ _ Hsim Hm).
    + unfold where_mask. rewrite list_lookup_fmap.
      destruct (similarity dotp q k !! r) as [row|]; simpl; [|done].
      rewrite lookup_zip_with, Hm. done.
Qed.

(** The output row of query [r] of the causal attention. *)
Lemma attend_lookup causal mask q k v r :
  attend mask_value dotp softmax_row wsum causal mask q k v !! r
  = (fun row => wsum (softmax_row row) v)
      <$> masked_sim mask_value dotp causal mask q k !! r.
Proof.
  unfold attend. cbv zeta. rewrite !list_lookup_fmap.
  by destruct (masked_sim mask_value dotp causal mask q k !! r).
Qed.

Lemma masked_sim_causal_row mask q k r qr :
  q !! r = Some qr ->
  masked_sim mask_value dotp true mask q k !! r
  = Some (imap (fun c kc => if causal_mask (length q) (length k) r c
                            then mask_value else dotp qr kc) k).
Proof.
  intros Hq. unfold masked_sim, where_causal, similarity.
  rewrite list_lookup_imap, list_lookup_fmap, Hq. simpl. f_equal.
  by rewrite imap_fmap.
Qed.

(** C5, as amended: causal attention does not read the keys that are
    masked for a query.  If two key sequences of the same length agree
    wherever the causal mask lets query [r] look ([c <= r + (j - i)] for
    [i] queries and [j] keys, that is [c <= r] when there are as many
    queries as keys), the output rows of query [r] are equal, for the same
    queries and values, whatever the numeric kernels and the validity
    masks. *)
Theorem attend_causal_ignores_later_keys (mask mask' : option (list bool))
    (q k k' v : list (list scalar)) (r : nat) :
  length k = length k' ->
  (forall c, Z.of_nat c - Z.of_nat r < Z.of_nat (length k) - Z.of_nat (length q) + 1 ->
             k !! c = k' !! c) ->
  attend mask_value dotp softmax_row wsum true mask q k v !! r
  = attend mask_value dotp softmax_row wsum true mask' q k' v !! r.
Proof.
  intros Hlen Hagree. rewrite !attend_lookup.
  destruct (q !! r) as [qr|] eqn:Hq.
  - rewrite !(masked_sim_causal_row _ _ _ _ _ Hq). simpl.
    f_equal. f_equal. f_equal. rewrite <- Hlen.
    apply list_eq. intros c. rewrite !list_lookup_imap.
    unfold causal_mask.
    destruct (Z.leb_spec (Z.of_nat (length k) - Z.of_nat (length q) + 1)
                (Z.of_nat c - Z.of_nat r)) as [Hge|Hlt].
    + destruct (decide (c < length k)%nat) as [Hc|Hc].
      * destruct (lookup_lt_is_Some_2 k c Hc) as [x ->].
        assert (Hc' : (c < length k')%nat) by lia.
        by destruct (lookup_lt_is_Some_2 k' c Hc') as [x' ->].
      * rewrite !(proj2 (lookup_ge_None _ _)) by lia. done.
    + by rewrite (Hagree c Hlt).
  - unfold masked_sim, where_causal, similarity. cbv zeta.
    by rewrite !list_lookup_imap, !list_lookup_fmap, Hq.
Qed.

End AttentionProperties.

(** C4 fails as stated: with the causal flag set and one query and one key
    whose mask entry is [False], the score stays the raw score [1.0]. *)
Lemma both_maskings_applied_counterexample :
  ~ both_maskings_applied float64_mask_value float_dot true [false]
      [[SFloat 1%float]] [[SFloat 1%float]].
Proof.
  intros H. specialize (H 0%nat 0%nat).
  assert (Hs : score float64_mask_value float_dot true (Some [false])
                 [[SFloat 1%float]] [[SFloat 1%float]] 0 0
               = Some float64_mask_value).
  { apply H; simpl; [lia|lia|by left]. }
  apply (f_equal (fun o => match o with
                           | Some (SFloat x) => PrimFloat.ltb x 0%float
                           | _ => false
                           end)) in Hs.
  vm_compute in Hs. discriminate.
Qed.

(** ** The forward pass on a single device *)

Section ForwardProperties.

Variable mask_value : scalar.
Variable dotp : list scalar -> list scalar -> scalar.
Variable softmax_row : list scalar -> list scalar.
Variable wsum : list scalar -> list (list scalar) -> list scalar.
Variable project_qkv : Z -> Z -> pyval -> result (pyval * pyval * pyval).
Variable project_out : pyval -> result pyval.

(** C10: when the process is not distributed, [forward] is a local
    computation (no collective is called, so no sharding conversion takes
    place): the projections around [default_attention] on the input as
    given.  The flags [ring_attn] and [auto_shard_seq] of the module do not
    occur in it, so no value of them changes the result or raises. *)
Theorem forward_not_distributed (w : dist) (self : RingAttention) (x mask : pyval) :
  is_distributed w = false ->
  forward mask_value dotp softmax_row wsum project_qkv project_out w self x mask
  = lift (_ ← shape_last x;
          '(q, k, v) ← project_qkv (heads self) (dim_head self) x;
          out ← default_attention mask_value dotp softmax_row wsum q k v mask
                  (causal self);
          project_out out).
Proof.
  intros Hw. unfold forward. rewrite Hw, !andb_false_r. simpl.
  destruct (shape_last x) as [n|e]; simpl; [|done].
  destruct (project_qkv (heads self) (dim_head self) x) as [[[q k] v]|e]; simpl; [|done].
  destruct (default_attention mask_value dotp softmax_row wsum q k v mask (causal self))
    as [out|e]; simpl; [|done].
  by destruct (project_out out).
Qed.

End ForwardProperties.

(** ** Lock-step runs *)

Section RunRanks.

Context {A : Type}.
Variable ring_kernel : list (list pyval) -> result (list pyval).

Lemma run_ranks_done (fuel : nat) (vs : list A) :
  run_ranks ring_kernel fuel (Done <$> vs) = Finished vs.
Proof.
  assert (Hf : first_fail (Done <$> vs) = None) by (induction vs; simpl; auto).
  assert (Hd : mapM as_done (Done <$> vs) = Some vs).
  { apply mapM_Some. induction vs; simpl; constructor; auto. }
  destruct fuel; simpl; by rewrite Hf, Hd.
Qed.

Lemma run_ranks_fail (fuel : nat) (e : exn) (p : comm A) (ps : list (comm A)) :
  p = Fail e -> run_ranks ring_kernel fuel (p :: ps) = Raised e.
Proof. intros ->. by destruct fuel. Qed.

Lemma run_ranks_gather (fuel : nat) (dim : Z) (ps : list (comm A)) :
  ps <> [] -> Forall (at_gather dim) ps ->
  run_ranks ring_kernel (S fuel) ps =
    match all_gather_spec dim (gather_tensor <$> ps) with
    | Ok v => run_ranks ring_kernel fuel ((fun p => gather_cont p v) <$> ps)
    | Raise e => Raised e
    end.
Proof.
  intros Hne Hall.
  assert (Hf : first_fail ps = None).
  { clear Hne. induction Hall as [|p ps' (t & k & ->) _ IH]; simpl; auto. }
  assert (Hd : mapM as_done ps = None).
  { destruct Hall as [|p ps' (t & k & ->) _]; [by destruct Hne|done]. }
  assert (Hg : mapM as_gather ps
               = Some ((fun p => (dim, gather_tensor p, gather_cont p)) <$> ps)).
  { apply mapM_Some. clear Hne Hf Hd.
    induction Hall as [|p ps' (t & k & ->) _ IH]; simpl; constructor; auto. }
  simpl. rewrite Hf, Hd, Hg.
  assert (Hhd : default 0 (head ((fun g : Z * tensor * (pyval -> comm A) => g.1.1)
                  <$> ((fun p => (dim, gather_tensor p, gather_cont p)) <$> ps))) = dim).
  { destruct ps; [done|]. done. }
  cbv zeta. rewrite Hhd.
  assert (Hall' : forallb (fun g : Z * tensor * (pyval -> comm A) => g.1.1 =? dim)
                   ((fun p => (dim, gather_tensor p, gather_cont p)) <$> ps) = true).
  { apply forallb_forall. intros g Hin. apply list_elem_of_In in Hin.
    apply list_elem_of_fmap in Hin as (p & -> & _). simpl. apply Z.eqb_refl. }
  rewrite Hall'. rewrite <- list_fmap_compose.
  change (all_gather_spec dim (gather_tensor <$> ps)) with
    (all_gather_spec dim
       ((fun g : Z * tensor * (pyval -> comm A) => g.1.2)
        ∘ (fun p => (dim, gather_tensor p, gather_cont p)) <$> ps)).
  destruct (all_gather_spec dim _) as [v|e]; [|done].
  by rewrite <- list_fmap_compose.
Qed.

End RunRanks.

(** ** Shapes of token matrices *)

Lemma shape_of_list1 (row : list scalar) : shape (of_list1 row) = [length row].
Proof. unfold of_list1. destruct row; simpl; by rewrite ?length_fmap. Qed.

Lemma ndim_of_list1 (row : list scalar) : ndim (of_list1 row) = 1%nat.
Proof. unfold of_list1. by destruct row. Qed.

Lemma shape_of_list2 (row : list scalar) (m : list (list scalar)) :
  shape (of_list2 (row :: m)) = [S (length m); length row].
Proof.
  change (shape (of_list2 (row :: m)))
    with (S (length (of_list1 <$> m)) :: shape (of_list1 row)).
  by rewrite length_fmap, shape_of_list1.
Qed.

Lemma ndim_of_list2 (row : list scalar) (m : list (list scalar)) :
  ndim (of_list2 (row :: m)) = 2%nat.
Proof.
  change (ndim (of_list2 (row :: m))) with (S (ndim (of_list1 row))).
  by rewrite ndim_of_list1.
Qed.

Lemma token_rows_shape (L : nat) (m : list (list scalar)) :
  token_rows L m -> shape (of_list2 m) = [length m; L] /\ ndim (of_list2 m) = 2%nat.
Proof.
  intros [Hne Hall]. destruct m as [|row m]; [done|].
  rewrite shape_of_list2, ndim_of_list2.
  apply Forall_cons in Hall as [-> _]. done.
Qed.

Lemma narrow_of_list2 (start n : nat) (m : list (list scalar)) :
  narrow 1 start n (of_list2 m)
  = of_list2 ((fun row => take n (drop start row)) <$> m).
Proof.
  unfold narrow, of_list2. simpl. f_equal.
  rewrite <- !list_fmap_compose. apply list_fmap_ext. intros _ row _. simpl.
  unfold of_list1. by rewrite fmap_take, fmap_drop.
Qed.

Lemma num_splits_mul (n size : nat) :
  (0 < n)%nat -> (0 < size)%nat -> num_splits (n * size) size = n.
Proof.
  intros Hn Hs. unfold num_splits.
  replace (n * size + size - 1)%nat with ((size - 1) + n * size)%nat by lia.
  rewrite Nat.div_add by lia. rewrite Nat.div_small by lia. lia.
Qed.

Lemma shape_last_token_rows (L : nat) (m : list (list scalar)) :
  token_rows L m -> shape_last (PTensor (of_list2 m)) = Ok (Z.of_nat L).
Proof.
  intros H. apply token_rows_shape in H as [Hs _]. unfold shape_last. by rewrite Hs.
Qed.

Lemma pad_to_multiple_exact (t : tensor) (L size : Z) (v : scalar) :
  shape_last (PTensor t) = Ok L -> size <> 0 -> L mod size = 0 ->
  pad_to_multiple (PTensor t) size v = Ok (PTuple [PTensor t; PInt 0]).
Proof.
  intros Hs Hsize Hmod. unfold pad_to_multiple. rewrite Hs. simpl.
  unfold py_mod. destruct (Z.eqb_spec size 0); [done|]. simpl. by rewrite Hmod.
Qed.

Lemma resolve_axis_last2 (t : tensor) :
  ndim t = 2%nat -> resolve_axis t (-1) = Ok 1%nat.
Proof. intros H. unfold resolve_axis. by rewrite H. Qed.

Lemma torch_split_token_rows (M : list (list scalar)) (size n : nat) :
  token_rows (n * size) M -> (0 < size)%nat -> (0 < n)%nat ->
  torch_split (of_list2 M) (Z.of_nat size) (-1)
  = Ok ((fun k => of_list2 (chunk size k <$> M)) <$> seq 0 n).
Proof.
  intros HM Hsize Hn. destruct (token_rows_shape _ _ HM) as [Hshape Hndim].
  unfold torch_split. rewrite (resolve_axis_last2 _ Hndim). simpl.
  destruct (Z.ltb_spec (Z.of_nat size) 0); [lia|].
  destruct (Z.eqb_spec (Z.of_nat size) 0); [lia|].
  unfold size_at. rewrite Hshape. simpl. rewrite Nat2Z.id.
  rewrite num_splits_mul by done. f_equal.
  apply list_fmap_ext. intros _ k _. apply narrow_of_list2.
Qed.

Lemma shard_at_gather (w : dist) (m : list (list scalar)) (size n : nat) :
  is_distributed w = true -> token_rows (n * size) m -> (0 < size)%nat -> (0 < n)%nat ->
  exists k,
    sharded_batch_to_sharded_seq w (PTensor (of_list2 m)) PNone (Z.of_nat size)
    = AllGatherE 0 (of_list2 m) k /\
    forall M sizes, token_rows (n * size) M -> (get_rank w < get_world_size w)%nat ->
      k (PTuple [PTensor (of_list2 M); sizes]) =
        if Nat.eqb n (get_world_size w) then
          Done (PTuple [PTuple [PTensor (of_list2 (chunk size (get_rank w) <$> M)); PNone];
                        sizes])
        else Fail AssertionError.
Proof.
  intros Hw Hm Hsize Hn. unfold sharded_batch_to_sharded_seq.
  rewrite Hw.
  rewrite (shape_last_token_rows _ _ Hm).
  rewrite (pad_to_multiple_exact _ (Z.of_nat (n * size)) _ _ (shape_last_token_rows _ _ Hm)).
  2: lia. 2: { rewrite Nat2Z.inj_mul. apply Z.mod_mul. lia. }
  simpl. eexists. split; [reflexivity|].
  intros M sizes HM Hr. simpl.
  rewrite (torch_split_token_rows _ _ _ HM Hsize Hn). simpl.
  rewrite !length_fmap, length_seq.
  destruct (Nat.eqb_spec n (get_world_size w)) as [->|Hne].
  - rewrite Z.eqb_refl. simpl. unfold split_by_rank, py_index.
    rewrite !list_lookup_fmap, lookup_seq_lt by done. simpl. done.
  - destruct (Z.eqb_spec (Z.of_nat n) (Z.of_nat (get_world_size w))); [lia|done].
Qed.

Lemma size_at0_of_list2 (m : list (list scalar)) : size_at 0 (of_list2 m) = length m.
Proof. unfold size_at, of_list2. destruct m; simpl; by rewrite ?length_fmap. Qed.

Lemma rows_of_list2 (xs : list (list (list scalar))) :
  mapM rows (of_list2 <$> xs)
  = Some ((fun m : list (list scalar) => of_list1 <$> m) <$> xs).
Proof. apply mapM_Some. induction xs; simpl; constructor; auto. Qed.

Lemma concat_fmap_rows {X Y : Type} (f : X -> Y) (xs : list (list X)) :
  concat ((fun m : list X => f <$> m) <$> xs) = f <$> concat xs.
Proof.
  induction xs as [|m xs IH]; [done|].
  rewrite fmap_cons, !concat_cons, fmap_app. by f_equal.
Qed.

Lemma cat0_of_list2 (xs : list (list (list scalar))) :
  cat 0 (of_list2 <$> xs) = Some (of_list2 (concat xs)).
Proof.
  unfold cat. rewrite rows_of_list2. simpl. by rewrite concat_fmap_rows.
Qed.

Lemma all_gather_batch (xs : list (list (list scalar))) :
  xs <> [] ->
  all_gather_spec 0 (of_list2 <$> xs)
  = Ok (PTuple [PTensor (of_list2 (concat xs)); PTensor (batch_sizes xs)]).
Proof.
  intros Hne. unfold all_gather_spec.
  destruct (of_list2 <$> xs) as [|t0 ts] eqn:Hts; [by destruct xs|].
  assert (Hax : resolve_axis t0 0 = Ok 0%nat).
  { destruct xs as [|m0 xs']; [done|]. injection Hts as <- _.
    unfold resolve_axis. by destruct m0. }
  rewrite Hax. cbn [mbind result_mbind result_bind].
  rewrite <- Hts, cat0_of_list2. cbn [mbind result_mbind result_bind of_option].
  unfold batch_sizes. rewrite <- list_fmap_compose. do 6 f_equal.
  apply list_fmap_ext. intros _ m _. simpl. by rewrite size_at0_of_list2.
Qed.

Lemma token_rows_concat (L : nat) (xs : list (list (list scalar))) :
  xs <> [] -> Forall (token_rows L) xs -> token_rows L (concat xs).
Proof.
  intros Hne Hall. split.
  - destruct Hall as [|m xs' [Hm _] _]; [done|]. destruct m; done.
  - apply Forall_concat. eapply Forall_impl; [exact Hall|]. by intros m [_ ?].
Qed.

Lemma shard_world_spec (ring_kernel : list (list pyval) -> result (list pyval))
    (xs : list (list (list scalar))) (size n : nat) :
  xs <> [] -> (0 < size)%nat -> (0 < n)%nat -> Forall (token_rows (n * size)) xs ->
  run_ranks ring_kernel 1 (shard_world (Z.of_nat size) xs) =
    if Nat.eqb n (length xs) then
      Finished (imap (fun r _ =>
                  PTuple [PTuple [PTensor (of_list2 (chunk size r <$> concat xs)); PNone];
                          PTensor (batch_sizes xs)]) xs)
    else Raised AssertionError.
Proof.
  intros Hne Hsize Hn Hall.
  assert (Hhead : forall r m, xs !! r = Some m ->
            exists k,
              sharded_batch_to_sharded_seq (rank_ctx (length xs) r)
                (PTensor (of_list2 m)) PNone (Z.of_nat size)
              = AllGatherE 0 (of_list2 m) k /\
              k (PTuple [PTensor (of_list2 (concat xs)); PTensor (batch_sizes xs)]) =
                if Nat.eqb n (length xs) then
                  Done (PTuple [PTuple [PTensor (of_list2 (chunk size r <$> concat xs)); PNone];
                                PTensor (batch_sizes xs)])
                else Fail AssertionError).
  { intros r m Hr.
    destruct (shard_at_gather (rank_ctx (length xs) r) m size n) as (k & Hk & Hcont);
      [done| |done|done|].
    { rewrite Forall_lookup in Hall. eauto. }
    exists k. split; [done|]. apply Hcont.
    - by apply token_rows_concat.
    - simpl. by apply lookup_lt_Some in Hr. }
  set (progs := shard_world (Z.of_nat size) xs).
  set (v := PTuple [PTensor (of_list2 (concat xs)); PTensor (batch_sizes xs)]).
  assert (Hts : gather_tensor <$> progs = of_list2 <$> xs).
  { apply list_eq. intros r. unfold progs, shard_world.
    rewrite !list_lookup_fmap, list_lookup_imap.
    destruct (xs !! r) as [m|] eqn:Hr; [|done]. simpl.
    destruct (Hhead r m Hr) as (k & -> & _). done. }
  assert (Hks : (fun p => gather_cont p v) <$> progs
                = imap (fun r _ =>
                    if Nat.eqb n (length xs) then
                      Done (PTuple [PTuple [PTensor (of_list2 (chunk size r <$> concat xs));
                                            PNone];
                                    PTensor (batch_sizes xs)])
                    else Fail AssertionError) xs).
  { apply list_eq. intros r. unfold progs, shard_world.
    rewrite !list_lookup_fmap, !list_lookup_imap.
    destruct (xs !! r) as [m|] eqn:Hr; [|done]. simpl.
    destruct (Hhead r m Hr) as (k & -> & Hk). simpl. by rewrite <- Hk. }
  rewrite (run_ranks_gather _ 0 0).
  - rewrite Hts, (all_gather_batch xs Hne). fold v. rewrite Hks.
    destruct (Nat.eqb n (length xs)).
    + rewrite <- (run_ranks_done ring_kernel 0). f_equal.
      by rewrite fmap_imap.
    + destruct xs as [|m xs']; [done|]. by apply run_ranks_fail.
  - unfold progs, shard_world. by destruct xs.
  - apply Forall_lookup. intros r p. unfold progs, shard_world.
    rewrite list_lookup_imap. destruct (xs !! r) as [m|] eqn:Hr; [|done].
    simpl. intros [= <-]. destruct (Hhead r m Hr) as (k & -> & _).
    by exists (of_list2 m), k.
Qed.

(** ** Shapes of feature tensors *)

Lemma embed_of_list1 (g : scalar -> list scalar) (row : list scalar) :
  embed g (of_list1 row) = of_list2 (g <$> row).
Proof.
  unfold of_list2, of_list1. simpl. f_equal.
  rewrite <- !list_fmap_compose. by apply list_fmap_ext.
Qed.

Lemma embed_of_list2 (g : scalar -> list scalar) (m : list (list scalar)) :
  embed g (of_list2 m) = of_list3 (features g m).
Proof.
  unfold of_list3, features. unfold of_list2 at 1. simpl. f_equal.
  rewrite <- !list_fmap_compose. apply list_fmap_ext. intros _ row _.
  apply embed_of_list1.
Qed.

Lemma transpose_fmap {X K : Type} (f : K -> X -> tensor) (ks : list K) (M : list X) :
  transpose (length M) ((fun k => f k <$> M) <$> ks)
  = Some ((fun x => (fun k => f k x) <$> ks) <$> M).
Proof.
  induction ks as [|k ks IH].
  - cbn [fmap list_fmap transpose]. f_equal.
    induction M as [|x M IHM]; [done|]. cbn. by f_equal.
  - rewrite fmap_cons. cbn [transpose]. rewrite length_fmap.
    rewrite decide_True by done. rewrite IH. cbn [mbind option_bind]. f_equal.
    clear IH. induction M as [|x M IHM]; [done|].
    rewrite !fmap_cons. cbn [zip_with]. by f_equal.
Qed.

Lemma concat_chunks (size W : nat) (row : list scalar) :
  length row = (W * size)%nat ->
  concat ((fun k => chunk size k row) <$> seq 0 W) = row.
Proof.
  revert row. induction W as [|W IH]; intros row Hlen.
  - destruct row; done.
  - rewrite seq_S, fmap_app, concat_app. simpl. rewrite app_nil_r.
    rewrite <- (take_drop (W * size) row) at 2. f_equal.
    + rewrite <- (IH (take (W * size) row)) by (rewrite length_take; lia).
      f_equal. apply list_fmap_ext. intros i k Hk. unfold chunk.
      apply lookup_seq in Hk as [-> Hk]. simpl.
      rewrite (take_drop_commute (take _ _)), take_take.
      rewrite Nat.min_l by nia. by rewrite <- take_drop_commute.
    + unfold chunk. apply take_ge. rewrite length_drop. lia.
Qed.

Lemma cat_succ (d : nat) (ts : list tensor) :
  cat (S d) ts =
    rss ← mapM rows ts;
    cols ← transpose (length (default [] (head rss))) rss;
    Nd <$> mapM (cat d) cols.
Proof. done. Qed.

Lemma cat1_of_list3 {X K : Type} (F : K -> X -> list (list scalar))
    (ks : list K) (M : list X) :
  ks <> [] ->
  cat 1 ((fun k => of_list3 (F k <$> M)) <$> ks)
  = Some (of_list3 ((fun x => concat ((fun k => F k x) <$> ks)) <$> M)).
Proof.
  intros Hne. rewrite cat_succ.
  assert (Hrows : mapM rows ((fun k => of_list3 (F k <$> M)) <$> ks)
                  = Some ((fun k => (fun x => of_list2 (F k x)) <$> M) <$> ks)).
  { apply mapM_Some. clear Hne. induction ks as [|k ks IH]; [constructor|].
    rewrite !fmap_cons. constructor; [|done].
    unfold of_list3. simpl. by rewrite <- list_fmap_compose. }
  rewrite Hrows. cbn [mbind option_bind].
  assert (Hhd : length (default [] (head ((fun k => (fun x => of_list2 (F k x)) <$> M) <$> ks)))
                = length M).
  { destruct ks; [done|]. simpl. by rewrite length_fmap. }
  rewrite Hhd, (transpose_fmap (fun k x => of_list2 (F k x))). cbn [mbind option_bind].
  assert (Hcols : mapM (cat 0) ((fun x => (fun k => of_list2 (F k x)) <$> ks) <$> M)
                  = Some ((fun x => of_list2 (concat ((fun k => F k x) <$> ks))) <$> M)).
  { apply mapM_Some. clear. induction M as [|x M IH]; [constructor|].
    rewrite !fmap_cons. constructor; [|done].
    rewrite <- cat0_of_list2. by rewrite <- list_fmap_compose. }
  rewrite Hcols. unfold of_list3. simpl. by rewrite <- list_fmap_compose.
Qed.

Lemma ndim_of_list3 (x : list (list scalar)) (m : list (list (list scalar))) :
  x <> [] -> ndim (of_list3 (x :: m)) = 3%nat.
Proof.
  intros Hx. destruct x as [|row x]; [done|].
  change (ndim (of_list3 ((row :: x) :: m))) with (S (ndim (of_list2 (row :: x)))).
  by rewrite ndim_of_list2.
Qed.

Lemma size_at0_of_list3 (m : list (list (list scalar))) :
  size_at 0 (of_list3 m) = length m.
Proof. unfold size_at, of_list3. destruct m; simpl; by rewrite ?length_fmap. Qed.

Lemma all_gather_features (g : scalar -> list scalar) (size W : nat)
    (M : list (list scalar)) :
  (0 < size)%nat -> (0 < W)%nat -> token_rows (W * size) M ->
  exists sizes,
    all_gather_spec (-2) (feature_shard g size M <$> seq 0 W)
    = Ok (PTuple [PTensor (embed g (of_list2 M)); sizes]).
Proof.
  intros Hsize HW [HM Hrows]. unfold all_gather_spec.
  destruct (feature_shard g size M <$> seq 0 W) as [|t0 ts] eqn:Hts.
  { destruct W; [lia|done]. }
  assert (Ht0 : t0 = feature_shard g size M 0).
  { destruct W; [lia|]. by injection Hts as <- _. }
  assert (Hax : resolve_axis t0 (-2) = Ok 1%nat).
  { rewrite Ht0. unfold feature_shard. rewrite embed_of_list2.
    destruct M as [|row M']; [done|]. unfold features. rewrite !fmap_cons.
    unfold resolve_axis. rewrite ndim_of_list3; [done|].
    apply Forall_cons in Hrows as [Hrow _]. unfold chunk.
    destruct row as [|s row]; [simpl in Hrow; nia|]. simpl.
    destruct size; [lia|done]. }
  rewrite Hax. cbn [mbind result_mbind result_bind]. rewrite <- Hts.
  assert (Hshards : feature_shard g size M <$> seq 0 W
                    = (fun k => of_list3 ((fun row : list scalar => g <$> chunk size k row) <$> M))
                        <$> seq 0 W).
  { apply list_fmap_ext. intros _ k _. unfold feature_shard.
    rewrite embed_of_list2. unfold features. by rewrite <- list_fmap_compose. }
  rewrite Hshards, cat1_of_list3 by (destruct W; [lia|done]).
  cbn [of_option mbind result_mbind result_bind].
  assert (Heq : (fun x : list scalar =>
                   concat ((fun k => g <$> chunk size k x) <$> seq 0 W)) <$> M
                = features g M); [|rewrite Heq, <- embed_of_list2; by eexists].
  unfold features. apply list_fmap_ext. intros i row Hi.
  rewrite Forall_lookup in Hrows. specialize (Hrows i row Hi).
  transitivity (g <$> concat ((fun k => chunk size k row) <$> seq 0 W));
    [|by rewrite concat_chunks].
  rewrite <- concat_fmap_rows. by rewrite <- list_fmap_compose.
Qed.

Lemma tolist_batch_sizes (xs : list (list (list scalar))) :
  tolist (batch_sizes xs) = Ok ((fun m => Z.of_nat (length m)) <$> xs).
Proof.
  unfold tolist, batch_sizes.
  replace (mapM _ _) with (Some ((fun m : list (list scalar) => Z.of_nat (length m)) <$> xs));
    [done|].
  symmetry. apply mapM_Some. induction xs; simpl; constructor; auto.
Qed.

Lemma offsets_pieces {X : Type} (pre : list X) (xs : list (list X)) :
  (fun '(start, n) => take n (drop start (pre ++ concat xs)))
    <$> offsets (length pre) (length <$> xs)
  = xs.
Proof.
  revert pre. induction xs as [|m xs IH]; intros pre; [done|].
  rewrite fmap_cons. cbn [offsets]. rewrite fmap_cons. f_equal.
  - rewrite drop_app_length. simpl. by rewrite take_app_length.
  - rewrite <- length_app. simpl. rewrite app_assoc. apply IH.
Qed.

Lemma narrow0_of_list3 (start n : nat) (m : list (list (list scalar))) :
  narrow 0 start n (of_list3 m) = of_list3 (take n (drop start m)).
Proof. unfold narrow, of_list3. simpl. by rewrite fmap_take, fmap_drop. Qed.

Lemma sum_lengths {X : Type} (xs : list (list X)) :
  fold_right Z.add 0 ((fun m => Z.of_nat (length m)) <$> xs) = Z.of_nat (length (concat xs)).
Proof.
  induction xs as [|m xs IH]; [done|].
  rewrite fmap_cons. simpl. rewrite IH, length_app. lia.
Qed.

Lemma split_sizes_features (g : scalar -> list scalar) (xs : list (list (list scalar))) :
  torch_split_with_sizes (embed g (of_list2 (concat xs)))
    ((fun m => Z.of_nat (length m)) <$> xs) 0
  = Ok ((fun m => embed g (of_list2 m)) <$> xs).
Proof.
  unfold torch_split_with_sizes. rewrite embed_of_list2.
  assert (Hax : resolve_axis (of_list3 (features g (concat xs))) 0 = Ok 0%nat).
  { unfold resolve_axis, of_list3. by destruct (features g (concat xs)). }
  rewrite Hax. cbn [mbind result_mbind result_bind].
  rewrite size_at0_of_list3. unfold features at 1. rewrite length_fmap, sum_lengths.
  rewrite Z.eqb_refl, andb_true_r.
  replace (forallb _ _) with true.
  2: { symmetry. apply forallb_forall. intros z Hz. apply list_elem_of_In in Hz.
       apply list_elem_of_fmap in Hz as (m & -> & _). apply Z.leb_le. lia. }
  f_equal. rewrite <- list_fmap_compose.
  assert (Hnat : Z.to_nat ∘ (fun m : list (list scalar) => Z.of_nat (length m)) <$> xs
                 = length <$> xs).
  { apply list_fmap_ext. intros _ m _. simpl. lia. }
  rewrite Hnat.
  transitivity (of_list3 <$> ((fun '(start, n) => take n (drop start ([] ++ concat (features g <$> xs))))
                               <$> offsets (length (@nil (list (list scalar)))) (length <$> (features g <$> xs)))).
  - rewrite <- !list_fmap_compose.
    assert (Hlen : length ∘ features g <$> xs = length <$> xs).
    { apply list_fmap_ext. intros _ m _. simpl. unfold features. by rewrite length_fmap. }
    rewrite Hlen. apply list_fmap_ext. intros _ [start n] _. simpl.
    rewrite narrow0_of_list3. do 3 f_equal. unfold features.
    by rewrite concat_fmap_rows.
  - rewrite offsets_pieces, <- list_fmap_compose. apply list_fmap_ext.
    intros _ m _. cbv [compose]. by rewrite embed_of_list2.
Qed.

Lemma slice_cols_features (g : scalar -> list scalar) (L : nat) (m : list (list scalar)) :
  token_rows L m ->
  slice_cols (embed g (of_list2 m)) (Z.of_nat L) = Ok (embed g (of_list2 m)).
Proof.
  intros [Hne Hrows]. unfold slice_cols. rewrite embed_of_list2.
  assert (Hnd : Nat.ltb (ndim (of_list3 (features g m))) 2 = false).
  { destruct m as [|row m']; [done|]. unfold features. rewrite fmap_cons.
    change (ndim (of_list3 ((g <$> row) :: _))) with (S (ndim (of_list2 (g <$> row)))).
    destruct (g <$> row); done. }
  rewrite Hnd. destruct (Z.leb_spec 0 (Z.of_nat L)); [|lia]. f_equal.
  rewrite Nat2Z.id. unfold of_list3, features. simpl. f_equal.
  rewrite <- !list_fmap_compose. apply list_fmap_ext. intros i row Hi. simpl.
  unfold of_list2. simpl. f_equal. rewrite Forall_lookup in Hrows.
  apply take_ge. rewrite !length_fmap. by rewrite (Hrows i row Hi).
Qed.

Lemma transformer_two_gathers (g : scalar -> list scalar) (size : nat)
    (xs : list (list (list scalar))) (r : nat) (m : list (list scalar)) :
  (0 < size)%nat -> Forall (token_rows (length xs * size)) xs -> xs !! r = Some m ->
  exists k1 k2,
    RingTransformer_forward (positionwise g) (rank_ctx (length xs) r) true
      (Z.of_nat size) (PTensor (of_list2 m)) PNone
    = AllGatherE 0 (of_list2 m) k1 /\
    k1 (PTuple [PTensor (of_list2 (concat xs)); PTensor (batch_sizes xs)])
    = AllGatherE (-2) (feature_shard g size (concat xs) r) k2 /\
    forall sizes,
      k2 (PTuple [PTensor (embed g (of_list2 (concat xs))); sizes])
      = Done (PTensor (embed g (of_list2 m))).
Proof.
  intros Hsize Hall Hr.
  assert (Hne : xs <> []) by (by destruct xs).
  assert (HW : (0 < length xs)%nat) by (destruct xs; [done|simpl; lia]).
  assert (Hm : token_rows (length xs * size) m).
  { rewrite Forall_lookup in Hall. eauto. }
  destruct (shard_at_gather (rank_ctx (length xs) r) m size (length xs))
    as (k & Hk & Hcont); [done..|].
  specialize (Hcont (concat xs) (PTensor (batch_sizes xs))
                (token_rows_concat _ _ Hne Hall)).
  simpl in Hcont. rewrite Nat.eqb_refl in Hcont.
  specialize (Hcont (lookup_lt_Some _ _ _ Hr)).
  unfold RingTransformer_forward.
  rewrite (shape_last_token_rows _ _ Hm), Hk.
  cbn [lift mbind comm_mbind comm_bind andb is_distributed rank_ctx].
  eexists _, _. split; [reflexivity|]. cbn beta.
  rewrite Hcont.
  cbn [lift mbind comm_mbind comm_bind unpack2 result_mbind result_bind mret comm_mret
       positionwise sharded_seq_to_sharded_batch AllGather].
  split; [reflexivity|]. intros sizes.
  cbn [lift mbind comm_mbind comm_bind unpack2 result_mbind result_bind mret comm_mret
       py_split_sizes].
  rewrite tolist_batch_sizes.
  cbn [lift mbind comm_mbind comm_bind unpack2 result_mbind result_bind mret comm_mret].
  rewrite split_sizes_features.
  cbn [lift mbind comm_mbind comm_bind unpack2 result_mbind result_bind mret comm_mret].
  unfold split_by_rank, py_index. cbn [get_rank rank_ctx].
  rewrite !list_lookup_fmap, Hr.
  cbn [fmap option_fmap option_map of_option lift mbind comm_mbind comm_bind unpack2
       result_mbind result_bind mret comm_mret py_slice_cols].
  rewrite (slice_cols_features _ _ _ Hm). done.
Qed.

(** X19.  The round trip for exact lengths: in a distributed run of [W]
    ranks without masks, where
    every rank holds a non-empty batch (of any size) of sequences of length
    exactly [W * size], converting batch to sequence, applying any
    position-wise map [g] to the shard (the sequence axis of the result is
    its second to last, along which [sharded_seq_to_sharded_batch] gathers),
    converting back with the recorded batch sizes and truncating to the
    original length hands every rank [g] of its own input, exactly. *)
Theorem shard_roundtrip (ring_kernel : list (list pyval) -> result (list pyval))
    (g : scalar -> list scalar) (size : nat) (xs : list (list (list scalar))) :
  xs <> [] -> (0 < size)%nat -> Forall (token_rows (length xs * size)) xs ->
  roundtrip_reconstructs ring_kernel g (Z.of_nat size) xs.
Proof.
  intros Hne Hsize Hall. unfold roundtrip_reconstructs.
  assert (HW : (0 < length xs)%nat) by (destruct xs; [done|simpl; lia]).
  pose proof (token_rows_concat _ _ Hne Hall) as HM.
  set (progs := transformer_world g (Z.of_nat size) xs).
  set (v1 := PTuple [PTensor (of_list2 (concat xs)); PTensor (batch_sizes xs)]).
  destruct (all_gather_features g size (length xs) (concat xs) Hsize HW HM) as [sizes Hg2].
  set (v2 := PTuple [PTensor (embed g (of_list2 (concat xs))); sizes]) in *.
  assert (Hlook : forall r, progs !! r
            = (fun m => RingTransformer_forward (positionwise g) (rank_ctx (length xs) r)
                          true (Z.of_nat size) (PTensor (of_list2 m)) PNone) <$> xs !! r).
  { intros r. unfold progs, transformer_world. by rewrite list_lookup_imap. }
  assert (Hts1 : gather_tensor <$> progs = of_list2 <$> xs).
  { apply list_eq. intros r. rewrite !list_lookup_fmap, Hlook.
    destruct (xs !! r) as [m|] eqn:Hr; [|done]. simpl.
    destruct (transformer_two_gathers g size xs r m Hsize Hall Hr) as (k1 & k2 & -> & _).
    done. }
  set (progs2 := (fun p => gather_cont p v1) <$> progs).
  assert (Hts2 : gather_tensor <$> progs2 = feature_shard g size (concat xs) <$> seq 0 (length xs)).
  { apply list_eq. intros r. unfold progs2. rewrite !list_lookup_fmap, Hlook.
    destruct (xs !! r) as [m|] eqn:Hr; simpl.
    - destruct (transformer_two_gathers g size xs r m Hsize Hall Hr)
        as (k1 & k2 & -> & Hk1 & _).
      simpl. unfold v1. rewrite Hk1. simpl.
      by rewrite lookup_seq_lt by (by apply lookup_lt_Some in Hr).
    - apply lookup_ge_None in Hr. by rewrite lookup_seq_ge. }
  assert (Hdone : (fun p => gather_cont p v2) <$> progs2
                  = Done <$> ((fun m => PTensor (embed g (of_list2 m))) <$> xs)).
  { apply list_eq. intros r. unfold progs2. rewrite !list_lookup_fmap, Hlook.
    destruct (xs !! r) as [m|] eqn:Hr; [|done]. simpl.
    destruct (transformer_two_gathers g size xs r m Hsize Hall Hr)
      as (k1 & k2 & -> & Hk1 & Hk2).
    simpl. unfold v1, v2. rewrite Hk1. simpl. by rewrite Hk2. }
  rewrite (run_ranks_gather _ 1 0).
  - rewrite Hts1, (all_gather_batch xs Hne). fold v1 progs2.
    rewrite (run_ranks_gather _ 0 (-2)).
    + rewrite Hts2, Hg2, Hdone. apply run_ranks_done.
    + unfold progs2, progs, transformer_world. by destruct xs.
    + apply Forall_lookup. intros r p. unfold progs2.
      rewrite list_lookup_fmap, Hlook.
      destruct (xs !! r) as [m|] eqn:Hr; [|done]. simpl. intros [= <-].
      destruct (transformer_two_gathers g size xs r m Hsize Hall Hr)
        as (k1 & k2 & -> & Hk1 & _).
      simpl. unfold v1. rewrite Hk1. by eexists _, _.
  - unfold progs, transformer_world. by destruct xs.
  - apply Forall_lookup. intros r p. rewrite Hlook.
    destruct (xs !! r) as [m|] eqn:Hr; [|done]. simpl. intros [= <-].
    destruct (transformer_two_gathers g size xs r m Hsize Hall Hr) as (k1 & k2 & -> & _).
    by eexists _, _.
Qed.

(** ** What a rank can return *)

Lemma all_gather_spec_pair (dim : Z) (ts : list tensor) (v : pyval) :
  all_gather_spec dim ts = Ok v ->
  exists g sizes, v = PTuple [PTensor g; PTensor sizes].
Proof.
  unfold all_gather_spec. destruct ts as [|t0 ts]; [done|].
  destruct (resolve_axis t0 dim); [|done]. simpl.
  destruct (cat _ _); [|done]. simpl. intros [= <-]. eauto.
Qed.

Lemma returns_all {A : Type} (Q : A -> Prop) (p : comm A) :
  (forall a, Q a) -> returns Q p.
Proof. intros HQ. induction p; simpl; auto. Qed.

Lemma returns_bind {A B : Type} (Q : B -> Prop) (p : comm A) (f : A -> comm B) :
  returns (fun a => returns Q (f a)) p -> returns Q (p ≫= f).
Proof. induction p; simpl; auto. Qed.

Lemma returns_lift {A : Type} (Q : A -> Prop) (m : result A) :
  (forall a, m = Ok a -> Q a) -> returns Q (lift m).
Proof. destruct m; simpl; auto. Qed.

Lemma returns_impl {A : Type} (Q R : A -> Prop) (p : comm A) :
  (forall a, Q a -> R a) -> returns Q p -> returns R p.
Proof. intros HQR. induction p; simpl; auto. Qed.

Section RunReturns.

Context {A X : Type}.
Variable ring_kernel : list (list pyval) -> result (list pyval).
Variable Q : X -> A -> Prop.

Lemma as_done_returns (xs : list X) (ps : list (comm A)) (vs : list A) :
  Forall2 (fun x p => returns (Q x) p) xs ps ->
  mapM as_done ps = Some vs -> Forall2 Q xs vs.
Proof.
  intros Hret Hdone. apply mapM_Some in Hdone. revert vs Hdone.
  induction Hret as [|x p xs ps Hp _ IH]; intros vs Hdone.
  - inversion Hdone. constructor.
  - inversion Hdone as [|? v ? vs' Hv Hvs]; subst. constructor; [|by apply IH].
    destruct p; try discriminate. simpl in Hv. by injection Hv as <-.
Qed.

Lemma gather_step_returns (xs : list X) (ps : list (comm A))
    (gs : list (Z * tensor * (pyval -> comm A))) (g sizes : tensor) :
  Forall2 (fun x p => returns (Q x) p) xs ps ->
  Forall2 (fun p g => as_gather p = Some g) ps gs ->
  Forall2 (fun x p => returns (Q x) p) xs
    ((fun g' => g'.2 (PTuple [PTensor g; PTensor sizes])) <$> gs).
Proof.
  intros Hret. revert gs. induction Hret as [|x p xs ps Hp _ IH]; intros gs Hgs.
  - inversion Hgs. constructor.
  - inversion Hgs as [|? g' ? gs' Hg Hgs']; subst. rewrite fmap_cons.
    constructor; [|by apply IH].
    destruct p; try discriminate. simpl in Hg. injection Hg as <-. apply Hp.
Qed.

Lemma ring_step_returns (xs : list X) (ps : list (comm A))
    (rs : list (list pyval * (pyval -> comm A))) (outs : list pyval) :
  Forall2 (fun x p => returns (Q x) p) xs ps ->
  Forall2 (fun p r => as_ring p = Some r) ps rs ->
  length outs = length rs ->
  Forall2 (fun x p => returns (Q x) p) xs (zip_with (fun r o => r.2 o) rs outs).
Proof.
  intros Hret. revert rs outs.
  induction Hret as [|x p xs ps Hp _ IH]; intros rs outs Hrs Hlen.
  - inversion Hrs. constructor.
  - inversion Hrs as [|? r ? rs' Hr Hrs']; subst.
    destruct outs as [|o outs]; [done|]. simpl. constructor.
    + destruct p; try discriminate. simpl in Hr. injection Hr as <-. apply Hp.
    + apply IH; [done|]. simpl in Hlen. lia.
Qed.

(** A run that finishes returns, on every rank, a value the program of the
    rank can return. *)
Lemma run_ranks_returns (fuel : nat) (xs : list X) (ps : list (comm A)) (vs : list A) :
  Forall2 (fun x p => returns (Q x) p) xs ps ->
  run_ranks ring_kernel fuel ps = Finished vs -> Forall2 Q xs vs.
Proof.
  revert xs ps. induction fuel as [|fuel IH]; intros xs ps Hret; simpl.
  - destruct (first_fail ps); [done|].
    destruct (mapM as_done ps) as [vs'|] eqn:Hdone; [|done].
    intros [= <-]. by eapply as_done_returns.
  - destruct (first_fail ps); [done|].
    destruct (mapM as_done ps) as [vs'|] eqn:Hdone.
    { intros [= <-]. by eapply as_done_returns. }
    destruct (mapM as_gather ps) as [gs|] eqn:Hgs.
    + destruct (forallb _ gs); [|done].
      destruct (all_gather_spec _ _) as [v|e] eqn:Hv; [|done].
      apply all_gather_spec_pair in Hv as (g & sizes & ->).
      apply IH. apply mapM_Some in Hgs. by eapply gather_step_returns.
    + destruct (mapM as_ring ps) as [rs|] eqn:Hrs; [|done].
      destruct (ring_kernel _) as [outs|e]; [|done].
      destruct (Nat.eqb_spec (length outs) (length rs)) as [Hlen|]; [|done].
      apply IH. apply mapM_Some in Hrs. by eapply ring_step_returns.
Qed.

End RunReturns.

Lemma pad_to_multiple_tuple (v : pyval) (size : Z) (s : scalar) (r : pyval) :
  pad_to_multiple v size s = Ok r -> exists vs, r = PTuple vs.
Proof.
  unfold pad_to_multiple. destruct (shape_last v) as [L|]; [|done]. simpl.
  destruct (py_mod L size) as [rem|]; [|done]. simpl.
  destruct (rem =? 0); [intros [= <-]; eauto|].
  destruct v; try done. destruct (F_pad _ _ _); [|done]. simpl. intros [= <-]. eauto.
Qed.

Lemma pad_to_multiple_padded (t : tensor) (L size : Z) (s : scalar) (r : pyval) :
  shape_last (PTensor t) = Ok L -> 0 < size -> L mod size <> 0 ->
  pad_to_multiple (PTensor t) size s = Ok r ->
  exists t', r = PTuple [PTensor t'; PInt (size - L mod size)]
             /\ F_pad t (size - L mod size) s = Ok t'.
Proof.
  intros HL Hsize Hmod. unfold pad_to_multiple. rewrite HL. simpl.
  unfold py_mod. destruct (Z.eqb_spec size 0); [lia|]. simpl.
  destruct (Z.eqb_spec (L mod size) 0); [done|].
  destruct (F_pad _ _ _) as [t'|]; [|done]. simpl. intros [= <-]. eauto.
Qed.

(** When padding is needed, no rank can return from the conversion. *)
Lemma shard_with_padding_returns_nothing (w : dist) (t : tensor) (mask : pyval)
    (L size : Z) :
  shape_last (PTensor t) = Ok L -> 0 < size -> L mod size <> 0 ->
  returns (fun _ => False)
    (sharded_batch_to_sharded_seq w (PTensor t) mask size).
Proof.
  intros HL Hsize Hmod. unfold sharded_batch_to_sharded_seq.
  apply returns_bind, returns_lift. intros _ _.
  apply returns_bind, returns_lift. intros seq_len _.
  apply returns_bind, returns_lift. intros [x pad_length] Hpad.
  destruct (pad_to_multiple (PTensor t) size (SInt 0)) as [r|] eqn:Hr; [|done].
  destruct (pad_to_multiple_padded _ _ _ _ _ HL Hsize Hmod Hr) as (t' & -> & _).
  simpl in Hpad. injection Hpad as <- <-.
  apply returns_bind, returns_lift. intros p [= <-].
  assert (Hp : (0 <? size - L mod size) = true).
  { apply Z.ltb_lt. pose proof (Z.mod_pos_bound L size Hsize). lia. }
  rewrite Hp.
  apply returns_bind, returns_bind.
  apply (returns_all (fun _ => _)). intros mask'.
  apply returns_lift. intros padded Hpadded.
  apply pad_to_multiple_tuple in Hpadded as [vs ->].
  apply returns_bind. simpl. intros g sizes. done.
Qed.

(** When a mask is supplied, no rank can return from the conversion. *)
Lemma shard_with_mask_returns_nothing (w : dist) (x mask : pyval) (size : Z) :
  exists_ mask = true ->
  returns (fun _ => False) (sharded_batch_to_sharded_seq w x mask size).
Proof.
  intros Hmask. unfold sharded_batch_to_sharded_seq.
  apply returns_bind, returns_lift. intros _ _.
  apply returns_bind, returns_lift. intros seq_len _.
  apply returns_bind, returns_lift. intros [x' pad_length] _.
  apply returns_bind, returns_lift. intros p _.
  rewrite Hmask. cbn [negb].
  apply returns_bind.
  apply (returns_impl (fun m => exists_ m = true)).
  2: { destruct (0 <? p); [|done]. apply returns_bind. simpl.
       apply returns_lift. intros r Hr. by apply pad_to_multiple_tuple in Hr as [vs ->]. }
  intros mask' Hmask'.
  apply returns_bind, returns_bind.
  apply (returns_all (fun _ => _)). intros r.
  apply returns_lift. intros [x'' sizes] _.
  rewrite Hmask'. apply returns_bind.
  destruct mask'; try done. simpl. intros g sizes'.
  apply returns_bind, returns_lift. intros ts _.
  apply returns_bind, returns_lift. intros n _.
  apply returns_bind, returns_lift. intros _ _.
  apply returns_bind, returns_lift. intros [x3 ?] _.
  simpl. done.
Qed.

(** A rank that cannot return keeps every run from finishing. *)
Lemma never_returning_rank (ring_kernel : list (list pyval) -> result (list pyval))
    {A : Type} (fuel : nat) (ps : list (comm A)) (r : nat) (p : comm A) (vs : list A) :
  ps !! r = Some p -> returns (fun _ => False) p ->
  run_ranks ring_kernel fuel ps <> Finished vs.
Proof.
  intros Hr Hp Hrun.
  assert (Hret : Forall2 (fun i q => returns (fun _ => i <> r) q) (seq 0 (length ps)) ps).
  { apply Forall2_same_length_lookup_2; [by rewrite length_seq|].
    intros i j q Hi Hq. apply lookup_seq in Hi as [-> _]. simpl.
    destruct (decide (i = r)) as [->|Hne].
    - rewrite Hr in Hq. injection Hq as <-.
      apply (returns_impl (fun _ => False)); [done|exact Hp].
    - by apply returns_all. }
  pose proof (run_ranks_returns ring_kernel (fun (i : nat) (_ : A) => i <> r)
                fuel _ _ _ Hret Hrun) as Hvs.
  pose proof (Forall2_length _ _ _ Hvs) as Hlen. rewrite length_seq in Hlen.
  assert (Hlt : (r < length ps)%nat) by (by eapply lookup_lt_Some).
  destruct (lookup_lt_is_Some_2 vs r) as [v Hv]; [lia|].
  eapply (Forall2_lookup_lr _ _ _ r r v) in Hvs; [done| |done].
  by apply lookup_seq_lt.
Qed.

(** C3: whenever the sequence length of a rank is not a multiple of the shard
    size, [mask = pad_to_multiple(mask, ...)] binds the pair the function
    returns, [all_gather(mask)] is handed that pair, and the conversion
    raises: no run with such a rank finishes, so no mask shard (and nothing
    else) is returned, with or without a mask supplied. *)
Theorem shard_with_padding_never_returns
    (ring_kernel : list (list pyval) -> result (list pyval)) (fuel : nat)
    (ps : list (comm pyval)) (r : nat) (w : dist) (t : tensor) (mask : pyval)
    (L size : Z) :
  shape_last (PTensor t) = Ok L -> 0 < size -> L mod size <> 0 ->
  ps !! r = Some (sharded_batch_to_sharded_seq w (PTensor t) mask size) ->
  ~ exists vs, run_ranks ring_kernel fuel ps = Finished vs.
Proof.
  intros HL Hsize Hmod Hr [vs Hrun].
  eapply never_returning_rank; [exact Hr| |exact Hrun].
  by eapply shard_with_padding_returns_nothing.
Qed.

(** A supplied mask is a pair after [mask = all_gather(mask)], and pairs have
    no [split]: no run in which a rank supplies a mask finishes. *)
Theorem shard_with_mask_never_returns
    (ring_kernel : list (list pyval) -> result (list pyval)) (fuel : nat)
    (ps : list (comm pyval)) (r : nat) (w : dist) (x mask : pyval) (size : Z) :
  exists_ mask = true ->
  ps !! r = Some (sharded_batch_to_sharded_seq w x mask size) ->
  ~ exists vs, run_ranks ring_kernel fuel ps = Finished vs.
Proof.
  intros Hmask Hr [vs Hrun].
  eapply never_returning_rank; [exact Hr| |exact Hrun].
  by apply shard_with_mask_returns_nothing.
Qed.

(** ** The forward pass with auto-sharding *)

Lemma slice_cols_extent (t t' : tensor) (n : Z) :
  0 <= n -> slice_cols t n = Ok t' -> Z.of_nat (size_at 1 t') <= n.
Proof.
  intros Hn. unfold slice_cols.
  destruct t as [s|[|x ts]]; try done.
  destruct x as [s|l]; [by destruct ts|].
  destruct (Nat.ltb _ _); [done|].
  destruct (Z.leb_spec 0 n); [|lia]. intros [= <-].
  unfold size_at. simpl.
  assert (Hlen : (length (take (Z.to_nat n) l) <= Z.to_nat n)%nat)
    by (rewrite length_take; lia).
  destruct (take (Z.to_nat n) l); simpl in *; lia.
Qed.

Lemma shape_last_nonneg (v : pyval) (d : Z) : shape_last v = Ok d -> 0 <= d.
Proof.
  destruct v; try done. simpl. destruct (last (shape t)); [|done].
  simpl. intros [= <-]. lia.
Qed.

Section ForwardSharded.

Variable mask_value : scalar.
Variable dotp : list scalar -> list scalar -> scalar.
Variable softmax_row : list scalar -> list scalar.
Variable wsum : list scalar -> list (list scalar) -> list scalar.
Variable project_qkv : Z -> Z -> pyval -> result (pyval * pyval * pyval).
Variable project_out : pyval -> result pyval.
Variable ring_kernel : list (list pyval) -> result (list pyval).

Lemma forward_returns_truncated (w : dist) (self : RingAttention) (x mask : pyval) :
  auto_shard_seq self = true -> is_distributed w = true ->
  returns (fun out => exists t d, out = PTensor t /\ shape_last x = Ok d
                                  /\ Z.of_nat (size_at 1 t) <= d)
    (forward mask_value dotp softmax_row wsum project_qkv project_out w self x mask).
Proof.
  intros Hauto Hw. unfold forward. rewrite Hauto, Hw. cbn [andb negb].
  apply returns_bind, returns_lift. intros d Hd.
  apply returns_bind. apply (returns_all (fun _ => _)). intros [[x' mask'] sizes].
  apply returns_bind, returns_lift. intros [[q k] v] _.
  apply returns_bind. apply (returns_all (fun _ => _)). intros out.
  apply returns_bind, returns_lift. intros out' _.
  apply returns_bind, returns_bind. apply (returns_all (fun _ => _)). intros r.
  apply returns_bind, returns_lift. intros [out'' ?] _.
  apply returns_lift. intros res Hres. simpl.
  destruct out''; try done. simpl in Hres.
  destruct (slice_cols t d) as [t'|] eqn:Ht; [|done]. injection Hres as <-.
  exists t', d. split; [done|]. split; [done|].
  eapply slice_cols_extent; [|done]. by eapply shape_last_nonneg.
Qed.

(** C6: with auto-sharding on, in a distributed run, whatever the numeric
    kernels compute, the tensor [forward] returns on a rank has at most
    [x.shape[-1]] positions along its sequence axis (axis 1), where [x] is
    the input of the rank: for an input [b n d] that is the feature extent
    [d], not the sequence length [n]. *)
Theorem forward_auto_shard_truncates_to_last_extent (fuel W : nat)
    (self : RingAttention) (inputs : list (tensor * pyval)) (outs : list pyval) :
  auto_shard_seq self = true ->
  run_ranks ring_kernel fuel
    (imap (fun r '(x, mask) =>
             forward mask_value dotp softmax_row wsum project_qkv project_out
               (rank_ctx W r) self (PTensor x) mask) inputs)
  = Finished outs ->
  Forall2 (fun '(x, _) out =>
             exists t d, out = PTensor t /\ shape_last (PTensor x) = Ok d
                         /\ Z.of_nat (size_at 1 t) <= d) inputs outs.
Proof.
  intros Hauto Hrun.
  eapply (run_ranks_returns ring_kernel
            (fun '(x, _) out => exists t d, out = PTensor t /\ shape_last (PTensor x) = Ok d
                         /\ Z.of_nat (size_at 1 t) <= d)); [|exact Hrun].
  apply Forall2_same_length_lookup_2; [by rewrite length_imap|].
  intros i [x mask] p Hi Hp. rewrite list_lookup_imap, Hi in Hp. simpl in Hp.
  injection Hp as <-. by apply forward_returns_truncated.
Qed.

End ForwardSharded.

(** ** The round trip and the chunk count, on concrete worlds *)

Lemma world_4_rows : Forall (token_rows (2 * 2)) world_4.
Proof. repeat constructor; done. Qed.

(** With two ranks, shard size two and sequences of length six (three
    chunks for two ranks) the conversion raises an [AssertionError] and
    nothing is reconstructed. *)
Lemma roundtrip_three_chunks_raises :
  ~ roundtrip_reconstructs no_ring unsqueeze 2 world_6.
Proof. unfold roundtrip_reconstructs. vm_compute. discriminate. Qed.

Lemma shard_roundtrip_witness :
  roundtrip_reconstructs no_ring unsqueeze (Z.of_nat 2) world_4.
Proof.
  apply (shard_roundtrip no_ring unsqueeze 2 world_4);
    [discriminate | lia | exact world_4_rows].
Defined.

(** C7, as amended: when the process is not distributed the conversion fails
    at once.  In a distributed run without masks, where every rank holds a
    non-empty batch of sequences of length [n * size] (so no padding is
    needed), the conversion fails, with an [AssertionError], exactly when the
    number of chunks [n] differs from the world size; when it succeeds rank
    [r] keeps chunk [r] of every gathered sequence, with no mask, together
    with the batch extents of the ranks. *)
Theorem shard_fails_iff_chunk_count
    (ring_kernel : list (list pyval) -> result (list pyval))
    (xs : list (list (list scalar))) (size n : nat) :
  xs <> [] -> (0 < size)%nat -> (0 < n)%nat -> Forall (token_rows (n * size)) xs ->
  (forall w x mask seq_size, is_distributed w = false ->
     sharded_batch_to_sharded_seq w x mask seq_size = Fail AssertionError) /\
  (run_ranks ring_kernel 1 (shard_world (Z.of_nat size) xs) = Raised AssertionError
   <-> n <> length xs) /\
  (n = length xs ->
   run_ranks ring_kernel 1 (shard_world (Z.of_nat size) xs)
   = Finished (imap (fun r _ =>
                 PTuple [PTuple [PTensor (of_list2 (chunk size r <$> concat xs)); PNone];
                         PTensor (batch_sizes xs)]) xs)).
Proof.
  intros Hne Hsize Hn Hall.
  pose proof (shard_world_spec ring_kernel xs size n Hne Hsize Hn Hall) as Hrun.
  split; [|split].
  - intros w x mask seq_size Hw. unfold sharded_batch_to_sharded_seq. by rewrite Hw.
  - rewrite Hrun. destruct (Nat.eqb_spec n (length xs)); split; done.
  - intros ->. by rewrite Hrun, Nat.eqb_refl.
Qed.

Lemma shard_fails_iff_chunk_count_witness :
  (forall w x mask seq_size, is_distributed w = false ->
     sharded_batch_to_sharded_seq w x mask seq_size = Fail AssertionError) /\
  (run_ranks no_ring 1 (shard_world (Z.of_nat 2) world_4) = Raised AssertionError
   <-> 2%nat <> length world_4) /\
  (2%nat = length world_4 ->
   run_ranks no_ring 1 (shard_world (Z.of_nat 2) world_4)
   = Finished (imap (fun r _ =>
                 PTuple [PTuple [PTensor (of_list2 (chunk 2 r <$> concat world_4)); PNone];
                         PTensor (batch_sizes world_4)]) world_4)).
Proof.
  apply (shard_fails_iff_chunk_count no_ring world_4 2 2);
    [discriminate | lia | lia | exact world_4_rows].
Defined.

(** C7 fails as stated: in a single process that is not distributed, a
    sequence of length two and shard size two make one chunk, as many as
    there are ranks, and the conversion fails all the same. *)
Lemma shard_single_process_counterexample :
  (ts ← torch_split (of_list2 [tokens [1; 2]]) 2 (-1); Ok (length ts))
  = Ok (get_world_size single_process) /\
  run_ranks no_ring 1
    [sharded_batch_to_sharded_seq single_process (PTensor (of_list2 [tokens [1; 2]])) PNone 2]
  = Raised AssertionError.
Proof. split; vm_compute; reflexivity. Qed.

(** ** Padding, on concrete worlds *)

Lemma shard_with_padding_never_returns_witness :
  ~ exists vs, run_ranks no_ring 3 (shard_world 2 world_3) = Finished vs.
Proof.
  apply (shard_with_padding_never_returns no_ring 3 (shard_world 2 world_3) 0
           (rank_ctx 2 0) (of_list2 [tokens [1; 2; 3]]) PNone 3 2);
    [reflexivity | lia | discriminate | reflexivity].
Defined.

(** C9 at the scenario of the specification: for length 1000 and shard size
    256 [pad_to_multiple] appends 24 positions and the padded length is 1024,
    but the conversion then raises [AttributeError] (the padded mask is the
    pair [pad_to_multiple] returned), so that no mask shard and no output
    exist. *)
Theorem shard_1000_256_raises :
  (r ← pad_to_multiple (PTensor (of_list2 [replicate 1000 (SInt 7)])) 256 (SInt 0);
   '(x, pad_length) ← unpack2 r;
   n ← shape_last x;
   Ok (pad_length, n))
  = Ok (PInt 24, 1024) /\
  run_ranks no_ring 3 (shard_world 256 world_1000) = Raised AttributeError.
Proof. split; vm_compute; reflexivity. Qed.

(** ** Instances *)

Lemma forward_auto_shard_truncates_to_last_extent_witness :
  Forall2 (fun '(x, _) out =>
             exists t d, out = PTensor t /\ shape_last (PTensor x) = Ok d
                         /\ Z.of_nat (size_at 1 t) <= d)
    [(x_1_4_2, PNone); (x_1_4_2, PNone)] outs_1_4_2.
Proof.
  apply (forward_auto_shard_truncates_to_last_extent float64_mask_value float_dot
           pass_softmax pass_wsum pass_qkv pass_out pass_ring 3 2 module_1);
    [reflexivity | vm_compute; reflexivity].
Defined.

(** The input has four positions; the output of either rank has two. *)
Example forward_1_4_2_shapes :
  shape x_1_4_2 = [1; 4; 2]%nat /\
  (fun out => match out with PTensor t => shape t | _ => [] end) <$> outs_1_4_2
  = [[1; 2; 1]; [1; 2; 1]]%nat.
Proof. split; vm_compute; reflexivity. Qed.

Lemma forward_not_distributed_witness :
  forward float64_mask_value float_dot pass_softmax pass_wsum pass_qkv pass_out
    single_process module_1 (PTensor x_1_4_2) PNone
  = lift (_ ← shape_last (PTensor x_1_4_2);
          '(q, k, v) ← pass_qkv (heads module_1) (dim_head module_1) (PTensor x_1_4_2);
          out ← default_attention float64_mask_value float_dot pass_softmax pass_wsum
                  q k v PNone (causal module_1);
          pass_out out).
Proof.
  apply (forward_not_distributed float64_mask_value float_dot pass_softmax pass_wsum
           pass_qkv pass_out single_process module_1). reflexivity.
Defined.

Lemma masked_sim_entry_witness :
  score float64_mask_value float_dot true (Some [false])
    [[SFloat 1%float]] [[SFloat 1%float]] 0 0
  = Some (float_dot [SFloat 1%float] [SFloat 1%float]).
Proof.
  exact (masked_sim_entry float64_mask_value float_dot true (Some [false])
           [[SFloat 1%float]] [[SFloat 1%float]] 0 0 _ _ eq_refl eq_refl).
Defined.

Lemma attend_causal_ignores_later_keys_witness :
  attend float64_mask_value float_dot pass_softmax pass_wsum true None
    [[SFloat 1%float]; [SFloat 1%float]] [[SFloat 1%float]; [SFloat 2%float]]
    [[SFloat 5%float]; [SFloat 6%float]] !! 0%nat
  = attend float64_mask_value float_dot pass_softmax pass_wsum true None
      [[SFloat 1%float]; [SFloat 1%float]] [[SFloat 1%float]; [SFloat 3%float]]
      [[SFloat 5%float]; [SFloat 6%float]] !! 0%nat.
Proof.
  apply (attend_causal_ignores_later_keys float64_mask_value float_dot pass_softmax
           pass_wsum None None); [reflexivity|].
  intros c Hc. assert (c = 0%nat) as -> by (simpl in Hc; lia). reflexivity.
Defined.

(** ** The arithmetic of padding *)

Lemma shape_Nd_last (ts : list tensor) : exists n, last (shape (Nd ts)) = Some n.
Proof.
  destruct ts as [|t ts]; [by exists 0%nat|]. simpl.
  destruct (shape t) as [|a l] eqn:Hs; [by eexists|].
  rewrite last_cons. destruct (last (a :: l)) eqn:Hl; [by eexists|].
  by apply last_None in Hl.
Qed.

Lemma ndim_Nd (ts : list tensor) : ndim (Nd ts) <> 0%nat.
Proof. by destruct ts. Qed.

Lemma last_shape_cons (t : tensor) (ts : list tensor) :
  ndim t <> 0%nat -> last (shape (Nd (t :: ts))) = last (shape t).
Proof.
  intros Hnd. destruct t as [s|l]; [done|]. simpl.
  destruct (shape_Nd_last l) as [n Hn]. rewrite last_cons. simpl in Hn. by rewrite Hn.
Qed.

Lemma last_shape_pad (p : nat) (v : scalar) (d : nat) (t : tensor) :
  ndim t = S d ->
  last (shape (on_axis d (fun ts => ts ++ replicate p (Sc v)) t))
  = (fun n => (n + p)%nat) <$> last (shape t).
Proof.
  revert t. induction d as [|d IH]; intros t Hnd.
  - destruct t as [s|[|t' ts]]; [done| |].
    + simpl. by destruct p; simpl; rewrite ?length_replicate.
    + simpl in Hnd. destruct t' as [s|l]; [|by destruct l].
      simpl. rewrite length_app, length_replicate. done.
  - destruct t as [s|[|t' ts]]; [done|done|].
    simpl in Hnd. injection Hnd as Hnd.
    change (on_axis (S d) ?f (Nd (t' :: ts)))
      with (Nd (on_axis d f t' :: (on_axis d f <$> ts))).
    rewrite !last_shape_cons; [by apply IH|lia|].
    destruct t' as [s|l]; [done|]. destruct d; apply ndim_Nd.
Qed.

Lemma F_pad_shape_last (t : tensor) (p L : Z) (v : scalar) :
  shape_last (PTensor t) = Ok L -> 0 <= p ->
  exists t', F_pad t p v = Ok t' /\ shape_last (PTensor t') = Ok (L + p).
Proof.
  intros HL Hp. unfold F_pad. destruct (ndim t) as [|d] eqn:Hnd.
  { destruct t as [s|[|? ?]]; done. }
  destruct (Z.leb_spec 0 p); [|lia]. eexists. split; [done|].
  unfold shape_last in *. rewrite (last_shape_pad _ _ _ _ Hnd).
  destruct (last (shape t)) as [n|]; [|done]. simpl in *. injection HL as <-.
  f_equal. lia.
Qed.

(** The number of positions [pad_to_multiple] appends is
    [(size - L mod size) mod size]: the padded length is the next multiple of
    [size], and nothing changes when [L] is a multiple already. *)
Theorem pad_to_multiple_length (t : tensor) (L size : Z) (v : scalar) :
  shape_last (PTensor t) = Ok L -> 0 < size ->
  let pad_length := (size - L mod size) mod size in
  exists t',
    pad_to_multiple (PTensor t) size v = Ok (PTuple [PTensor t'; PInt pad_length]) /\
    shape_last (PTensor t') = Ok (L + pad_length) /\
    (L + pad_length) mod size = 0 /\ 0 <= pad_length < size /\
    (L mod size = 0 -> pad_length = 0 /\ t' = t).
Proof.
  intros HL Hsize pad_length.
  pose proof (Z.mod_pos_bound L size Hsize) as Hrem.
  assert (Hmul : (L + pad_length) mod size = 0).
  { unfold pad_length. rewrite Zplus_mod_idemp_r.
    replace (L + (size - L mod size)) with (L - L mod size + 1 * size) by lia.
    rewrite Z.mod_add by lia. rewrite Zminus_mod_idemp_r, Z.sub_diag. done. }
  assert (Hbound : 0 <= pad_length < size) by (apply Z.mod_pos_bound; lia).
  unfold pad_to_multiple. rewrite HL. simpl. unfold py_mod.
  destruct (Z.eqb_spec size 0); [lia|]. simpl.
  destruct (Z.eqb_spec (L mod size) 0) as [Hz|Hnz].
  - assert (Hpad : pad_length = 0).
    { unfold pad_length. rewrite Hz, Z.sub_0_r. apply Z_mod_same_full. }
    exists t. rewrite Hpad, Z.add_0_r. repeat split; try done; try lia.
  - assert (Hpad : pad_length = size - L mod size).
    { unfold pad_length. apply Z.mod_small. lia. }
    destruct (F_pad_shape_last t (size - L mod size) L v HL) as (t' & Ht' & Hs'); [lia|].
    exists t'. rewrite Ht'. simpl. rewrite Hpad in *.
    repeat split; try done; try lia.
Qed.

Lemma pad_to_multiple_length_witness :
  exists t',
    pad_to_multiple (PTensor (of_list2 [tokens [1; 2; 3]])) 2 (SInt 0)
    = Ok (PTuple [PTensor t'; PInt ((2 - 3 mod 2) mod 2)]) /\
    shape_last (PTensor t') = Ok (3 + (2 - 3 mod 2) mod 2) /\
    (3 + (2 - 3 mod 2) mod 2) mod 2 = 0 /\ 0 <= (2 - 3 mod 2) mod 2 < 2 /\
    (3 mod 2 = 0 -> (2 - 3 mod 2) mod 2 = 0 /\ t' = of_list2 [tokens [1; 2; 3]]).
Proof.
  apply (pad_to_multiple_length (of_list2 [tokens [1; 2; 3]]) 3 2 (SInt 0));
    [reflexivity | lia].
Defined.

Lemma shard_with_mask_never_returns_witness :
  ~ exists vs, run_ranks no_ring 3 masked_world_4 = Finished vs.
Proof.
  apply (shard_with_mask_never_returns no_ring 3 masked_world_4 0 (rank_ctx 2 0)
           (PTensor (of_list2 [tokens [1; 2; 3; 4]]))
           (PTensor (ones_like_bool (of_list2 [tokens [1; 2; 3; 4]]))) 2);
    reflexivity.
Defined.

(** Applied to the token shard itself, [sharded_seq_to_sharded_batch] gathers
    along the batch axis (axis [-2] of a [b n] tensor), and the split by the
    recorded batch sizes fails. *)
Example roundtrip_on_tokens_raises :
  run_ranks no_ring 2
    (imap (fun r m => RingTransformer_forward (fun x _ => Done x) (rank_ctx 2 r) true 2
                        (PTensor (of_list2 m)) PNone) world_4)
  = Raised RuntimeError.
Proof. vm_compute. reflexivity. Qed.

(** With a mask supplied and no padding needed the conversion raises too. *)
Example shard_with_mask_raises :
  run_ranks no_ring 3 masked_world_4 = Raised AttributeError.
Proof. vm_compute. reflexivity. Qed.

(** With padding needed (length three, shard size two) the conversion raises. *)
Example shard_with_padding_raises :
  run_ranks no_ring 3 (shard_world 2 world_3) = Raised AttributeError.
Proof. vm_compute. reflexivity. Qed.

(** [module_1] is what [__init__] builds from its arguments. *)
Example module_1_init :
  RingAttention_init
    {| arg_dim := 2; arg_dim_head := 2; arg_heads := 1; arg_causal := false;
       arg_q_bucket_size := 1; arg_k_bucket_size := 1; arg_ring_attn := true;
       arg_ring_seq_size := 1; arg_auto_shard_seq := None |}
  = Ok module_1.
Proof. reflexivity. Qed.

(** ** Causal attention on concrete inputs *)

(** C5 fails as stated.  With one query and two keys the causal mask
    [triu(j - i + 1)] hides nothing from query 0, and changing key 1 changes
    its output from 1.0 to 0.0.  With two queries and two keys, an infinite
    value at position 1 turns the output of query 0 from 0.0 into NaN: the
    masked score gets weight zero, and zero times infinity is NaN. *)
Lemma causal_output_counterexample :
  ~ causal_output_depends_on_earlier_only
      [row1 1] [row1 0; row1 0] [row1 0; row1 (-1000)] [row1 0; row1 2] [row1 0; row1 2] 0
  /\
  ~ causal_output_depends_on_earlier_only
      [row1 1; row1 1] [row1 0; row1 0] [row1 0; row1 0]
      [row1 0; row1 2] [row1 0; row1 infinity] 0.
Proof.
  split; intros H.
  - assert (Hout : attend float64_mask_value float_dot float_softmax float_wsum true None
                     [row1 1] [row1 0; row1 0] [row1 0; row1 2] !! 0%nat
                   = attend float64_mask_value float_dot float_softmax float_wsum true None
                       [row1 1] [row1 0; row1 (-1000)] [row1 0; row1 2] !! 0%nat).
    { apply H; [done|done|]. intros [|c] Hc; [done|lia]. }
    apply (f_equal (fun o => match o with
                             | Some [SFloat x] => PrimFloat.ltb x 0.5%float
                             | _ => false
                             end)) in Hout.
    vm_compute in Hout. discriminate.
  - assert (Hout : attend float64_mask_value float_dot float_softmax float_wsum true None
                     [row1 1; row1 1] [row1 0; row1 0] [row1 0; row1 2] !! 0%nat
                   = attend float64_mask_value float_dot float_softmax float_wsum true None
                       [row1 1; row1 1] [row1 0; row1 0] [row1 0; row1 infinity] !! 0%nat).
    { apply H; [done|done|]. intros [|c] Hc; [done|lia]. }
    apply (f_equal (fun o => match o with
                             | Some [SFloat x] => PrimFloat.eqb x x
                             | _ => false
                             end)) in Hout.
    vm_compute in Hout. discriminate.
Qed.

(** The outputs of the four runs above. *)
Example causal_outputs :
  attend float64_mask_value float_dot float_softmax float_wsum true None
    [row1 1] [row1 0; row1 0] [row1 0; row1 2] = [row1 1] /\
  attend float64_mask_value float_dot float_softmax float_wsum true None
    [row1 1] [row1 0; row1 (-1000)] [row1 0; row1 2] = [row1 0] /\
  attend float64_mask_value float_dot float_softmax float_wsum true None
    [row1 1; row1 1] [row1 0; row1 0] [row1 0; row1 2] = [row1 0; row1 1] /\
  attend float64_mask_value float_dot float_softmax float_wsum true None
    [row1 1; row1 1] [row1 0; row1 0] [row1 0; row1 infinity] = [row1 nan; row1 infinity].
Proof. repeat split; vm_compute; reflexivity. Qed.

(** * Further properties *)

(** ** Padding *)

Lemma pad_of_list2 (p : nat) (v : scalar) (m : list (list scalar)) :
  on_axis 1 (fun ts => ts ++ replicate p (Sc v)) (of_list2 m)
  = of_list2 ((fun row => row ++ replicate p v) <$> m).
Proof.
  unfold of_list2. simpl. f_equal.
  rewrite <- !list_fmap_compose. apply list_fmap_ext. intros _ row _. simpl.
  unfold of_list1. by rewrite fmap_app, fmap_replicate.
Qed.

(** X3.  [pad_to_multiple] keeps the data and pads on the right: on a batch
    of rows of length [L] it returns every row followed by
    [(size - L mod size) mod size] copies of the padding value, together with
    that number. *)
Theorem pad_to_multiple_appends (L : nat) (m : list (list scalar)) (size : Z) (v : scalar) :
  token_rows L m -> 0 < size ->
  let pad_length := (size - Z.of_nat L mod size) mod size in
  pad_to_multiple (PTensor (of_list2 m)) size v
  = Ok (PTuple [PTensor (of_list2 ((fun row => row ++ replicate (Z.to_nat pad_length) v) <$> m));
                PInt pad_length]).
Proof.
  intros Hm Hsize pad_length.
  pose proof (shape_last_token_rows L m Hm) as HL.
  pose proof (Z.mod_pos_bound (Z.of_nat L) size Hsize) as Hb.
  destruct (Z.eq_dec (Z.of_nat L mod size) 0) as [Hz|Hz].
  - assert (Hp : pad_length = 0).
    { unfold pad_length. rewrite Hz, Z.sub_0_r. apply Z_mod_same_full. }
    rewrite Hp. rewrite (pad_to_multiple_exact _ _ size v HL) by lia.
    assert (Hid : (fun row : list scalar => row ++ replicate (Z.to_nat 0) v) <$> m = m).
    { rewrite <- (list_fmap_id m) at 2. apply list_fmap_ext. intros i row _. simpl.
      apply app_nil_r. }
    rewrite Hid. reflexivity.
  - assert (Hp : pad_length = size - Z.of_nat L mod size).
    { unfold pad_length. apply Z.mod_small. lia. }
    rewrite Hp. unfold pad_to_multiple. rewrite HL. simpl.
    unfold py_mod. destruct (Z.eqb_spec size 0) as [?|_]; [lia|]. simpl.
    destruct (Z.eqb_spec (Z.of_nat L mod size) 0) as [?|_]; [contradiction|].
    unfold F_pad. destruct (token_rows_shape L m Hm) as [_ Hnd]. rewrite Hnd.
    destruct (Z.leb_spec 0 (size - Z.of_nat L mod size)) as [_|?]; [|lia].
    rewrite pad_of_list2. reflexivity.
Qed.

Lemma pad_to_multiple_appends_witness :
  pad_to_multiple (PTensor (of_list2 [tokens [1; 2; 3]; tokens [4; 5; 6]])) 2 (SInt 0)
  = Ok (PTuple [PTensor (of_list2 [tokens [1; 2; 3; 0]; tokens [4; 5; 6; 0]]); PInt 1]).
Proof.
  apply (pad_to_multiple_appends 3 [tokens [1; 2; 3]; tokens [4; 5; 6]] 2 (SInt 0)).
  - split; [discriminate|]. repeat constructor.
  - lia.
Defined.

(** X4.  Padding is idempotent: what [pad_to_multiple] returns is already a
    multiple of [size] long, so that padding it again, with any value,
    returns it unchanged with a pad length of zero. *)
Theorem pad_to_multiple_idempotent (t t' : tensor) (size p : Z) (v v' : scalar) :
  0 < size ->
  pad_to_multiple (PTensor t) size v = Ok (PTuple [PTensor t'; PInt p]) ->
  pad_to_multiple (PTensor t') size v' = Ok (PTuple [PTensor t'; PInt 0]).
Proof.
  intros Hsize H.
  destruct (shape_last (PTensor t)) as [L|e] eqn:HL.
  2:{ unfold pad_to_multiple in H. rewrite HL in H. discriminate. }
  pose proof (shape_last_nonneg _ _ HL) as HL0.
  pose proof (Z.mod_pos_bound L size Hsize) as Hb.
  destruct (Z.eq_dec (L mod size) 0) as [Hz|Hz].
  - rewrite (pad_to_multiple_exact t L size v HL) in H by lia.
    assert (t' = t) as -> by congruence.
    apply (pad_to_multiple_exact t L size v' HL); lia.
  - destruct (pad_to_multiple_padded t L size v _ HL Hsize Hz H) as (t'' & Heq & Hpad).
    assert (t'' = t') as -> by congruence.
    destruct (F_pad_shape_last t (size - L mod size) L v HL) as (t2 & Hpad2 & HL2); [lia|].
    assert (t2 = t') as -> by congruence.
    apply (pad_to_multiple_exact t' _ size v' HL2); [lia|].
    replace (L + (size - L mod size)) with (L - L mod size + 1 * size) by lia.
    rewrite Z.mod_add by lia.
    rewrite Zminus_mod, Zmod_mod, Z.sub_diag. apply Zmod_0_l.
Qed.

Lemma pad_to_multiple_idempotent_witness :
  pad_to_multiple (PTensor (of_list2 [tokens [1; 2; 3; 0]])) 2 (SBool false)
  = Ok (PTuple [PTensor (of_list2 [tokens [1; 2; 3; 0]]); PInt 0]).
Proof.
  apply (pad_to_multiple_idempotent (of_list2 [tokens [1; 2; 3]]) _ 2 1 (SInt 0)).
  - lia.
  - reflexivity.
Defined.

(** ** The checks of the constructor *)

(** X5.  [divisible_by] raises [ZeroDivisionError] for a zero divisor and
    decides divisibility for every other one, negative ones included. *)
Theorem divisible_by_decides (num den : Z) :
  (den = 0 -> divisible_by num den = Raise ZeroDivisionError) /\
  (den <> 0 -> (divisible_by num den = Ok true <-> (den | num))) /\
  (den <> 0 -> (divisible_by num den = Ok false <-> ~ (den | num))).
Proof.
  unfold divisible_by, py_mod. repeat split.
  - intros ->. reflexivity.
  - destruct (Z.eqb_spec den 0) as [?|_]; [contradiction|]. simpl.
    destruct (Z.eqb_spec (num mod den) 0) as [Hz|Hz]; [|discriminate].
    intros _. apply Z.mod_divide; assumption.
  - intros Hd. destruct (Z.eqb_spec den 0) as [?|_]; [contradiction|]. simpl.
    apply Z.mod_divide in Hd; [|assumption]. rewrite Hd. reflexivity.
  - destruct (Z.eqb_spec den 0) as [?|_]; [contradiction|]. simpl.
    destruct (Z.eqb_spec (num mod den) 0) as [Hz|Hz]; [discriminate|].
    intros _ Hd. apply Hz. apply Z.mod_divide; assumption.
  - intros Hd. destruct (Z.eqb_spec den 0) as [?|_]; [contradiction|]. simpl.
    destruct (Z.eqb_spec (num mod den) 0) as [Hz|Hz]; [|reflexivity].
    exfalso. apply Hd. apply Z.mod_divide; assumption.
Qed.

Lemma divisible_by_cases (num den : Z) :
  den = 0 /\ divisible_by num den = Raise ZeroDivisionError \/
  den <> 0 /\ (den | num) /\ divisible_by num den = Ok true \/
  den <> 0 /\ ~ (den | num) /\ divisible_by num den = Ok false.
Proof.
  unfold divisible_by, py_mod.
  destruct (Z.eqb_spec den 0) as [->|Hd]; [left; split; reflexivity|]. simpl.
  destruct (Z.eqb_spec (num mod den) 0) as [Hz|Hz].
  - right; left. repeat split; [assumption|]. apply Z.mod_divide; assumption.
  - right; right. repeat split; [assumption|]. intros H. apply Hz.
    apply Z.mod_divide; assumption.
Qed.

Lemma alloc_ok (extents : list Z) :
  alloc extents = Ok tt -> Forall (fun n => 0 <= n) extents.
Proof.
  unfold alloc. destruct (forallb _ extents) eqn:H; [|discriminate]. intros _.
  apply Is_true_eq_left in H. apply forallb_True in H. eapply Forall_impl; [exact H|].
  intros n Hn. simpl in Hn. apply Is_true_eq_true in Hn. lia.
Qed.

Lemma alloc_cases (extents : list Z) :
  alloc extents = Ok tt \/ alloc extents = Raise RuntimeError.
Proof. unfold alloc. destruct (forallb _ extents); auto. Qed.

(** What a successful construction went through. *)
Lemma RingAttention_init_ok (a : init_args) (m : RingAttention) :
  RingAttention_init a = Ok m ->
  m = {| dim := arg_dim a;
         dim_head := arg_dim_head a;
         heads := arg_heads a;
         causal := arg_causal a;
         ring_attn := arg_ring_attn a;
         auto_shard_seq := default (arg_ring_attn a) (arg_auto_shard_seq a);
         ring_seq_size := arg_ring_seq_size a;
         q_bucket_size := arg_q_bucket_size a;
         k_bucket_size := arg_k_bucket_size a |} /\
  arg_dim_head a <> 0 /\ arg_q_bucket_size a <> 0 /\ arg_k_bucket_size a <> 0 /\
  (arg_q_bucket_size a | arg_ring_seq_size a) /\
  (arg_k_bucket_size a | arg_ring_seq_size a) /\
  negb (arg_ring_attn a) && default (arg_ring_attn a) (arg_auto_shard_seq a) = false /\
  0 <= arg_dim a /\ 0 <= arg_dim_head a * arg_heads a.
Proof.
  unfold RingAttention_init.
  destruct (Z.eqb_spec (arg_dim_head a) 0) as [?|Hdh]; [discriminate|]. simpl.
  destruct (divisible_by_cases (arg_ring_seq_size a) (arg_q_bucket_size a))
    as [[_ ->]|[(Hq & Hdq & ->)|(_ & _ & ->)]]; [discriminate| |discriminate]. simpl.
  destruct (divisible_by_cases (arg_ring_seq_size a) (arg_k_bucket_size a))
    as [[_ ->]|[(Hk & Hdk & ->)|(_ & _ & ->)]]; [discriminate| |discriminate]. simpl.
  destruct (negb (arg_ring_attn a) && default (arg_ring_attn a) (arg_auto_shard_seq a))
    eqn:Hflag; [discriminate|]. simpl.
  destruct (alloc [arg_dim a]) as [[]|] eqn:H1; [|discriminate]. simpl.
  destruct (alloc [arg_dim_head a * arg_heads a * 3; arg_dim a]) as [[]|] eqn:H2;
    [|discriminate]. simpl.
  destruct (alloc [arg_dim a; arg_dim_head a * arg_heads a]) as [[]|] eqn:H3;
    [|discriminate]. simpl.
  intros [= <-].
  apply alloc_ok in H1, H3. inversion H1; subst. inversion H3 as [|? ? _ H3']; subst.
  inversion H3'; subst.
  repeat split; assumption.
Qed.

(** X6.  The invariant of a constructed module: whenever
    [RingAttention.__init__] returns, the shard size is a multiple of both
    block sizes, the block sizes and the head dimension are not zero,
    auto-sharding is on only with ring attention, it is the ring attention
    flag when the argument is left out, and the layer extents are not
    negative. *)
Theorem RingAttention_init_invariant (a : init_args) (m : RingAttention) :
  RingAttention_init a = Ok m ->
  (q_bucket_size m | ring_seq_size m) /\ (k_bucket_size m | ring_seq_size m) /\
  q_bucket_size m <> 0 /\ k_bucket_size m <> 0 /\ dim_head m <> 0 /\
  (auto_shard_seq m = true -> ring_attn m = true) /\
  auto_shard_seq m = default (arg_ring_attn a) (arg_auto_shard_seq a) /\
  ring_attn m = arg_ring_attn a /\
  0 <= dim m /\ 0 <= dim_head m * heads m.
Proof.
  intros H.
  destruct (RingAttention_init_ok a m H) as (-> & Hdh & Hq & Hk & Hdq & Hdk & Hflag & H1 & H3).
  simpl. repeat split; try assumption.
  intros Hauto. rewrite Hauto in Hflag. destruct (arg_ring_attn a); [reflexivity|discriminate].
Qed.

Lemma RingAttention_init_invariant_witness :
  (q_bucket_size module_1 | ring_seq_size module_1) /\
  (k_bucket_size module_1 | ring_seq_size module_1) /\
  q_bucket_size module_1 <> 0 /\ k_bucket_size module_1 <> 0 /\ dim_head module_1 <> 0 /\
  (auto_shard_seq module_1 = true -> ring_attn module_1 = true) /\
  auto_shard_seq module_1 = default true None /\
  ring_attn module_1 = true /\
  0 <= dim module_1 /\ 0 <= dim_head module_1 * heads module_1.
Proof.
  apply (RingAttention_init_invariant
           {| arg_dim := 2; arg_dim_head := 2; arg_heads := 1; arg_causal := false;
              arg_q_bucket_size := 1; arg_k_bucket_size := 1; arg_ring_attn := true;
              arg_ring_seq_size := 1; arg_auto_shard_seq := None |} module_1).
  reflexivity.
Defined.

(** X7.  [RingAttention.__init__] raises [ZeroDivisionError] exactly when the
    head dimension is zero, the query block size is zero, or the query block
    size divides the shard size and the key block size is zero: a zero block
    size is not reported as a failed assertion. *)
Theorem RingAttention_init_zero_division (a : init_args) :
  RingAttention_init a = Raise ZeroDivisionError <->
  arg_dim_head a = 0 \/ arg_q_bucket_size a = 0 \/
  ((arg_q_bucket_size a | arg_ring_seq_size a) /\ arg_k_bucket_size a = 0).
Proof.
  unfold RingAttention_init.
  destruct (Z.eqb_spec (arg_dim_head a) 0) as [Hdh|Hdh]; simpl.
  { split; [intros _; left; assumption|reflexivity]. }
  destruct (divisible_by_cases (arg_ring_seq_size a) (arg_q_bucket_size a))
    as [[Hq ->]|[(Hq & Hdq & ->)|(Hq & Hdq & ->)]]; simpl.
  { split; [intros _; right; left; assumption|reflexivity]. }
  2:{ split; [discriminate|]. intros [?|[?|[? _]]]; contradiction. }
  destruct (divisible_by_cases (arg_ring_seq_size a) (arg_k_bucket_size a))
    as [[Hk ->]|[(Hk & Hdk & ->)|(Hk & Hdk & ->)]]; simpl.
  { split; [intros _; right; right; split; assumption|reflexivity]. }
  2:{ split; [discriminate|]. intros [?|[?|[_ ?]]]; contradiction. }
  assert (Hno : forall r : result RingAttention,
             (r = Raise ZeroDivisionError -> False) ->
             r = Raise ZeroDivisionError <->
             arg_dim_head a = 0 \/ arg_q_bucket_size a = 0 \/
             ((arg_q_bucket_size a | arg_ring_seq_size a) /\ arg_k_bucket_size a = 0)).
  { intros r Hr. split; [intros H; destruct (Hr H)|].
    intros [?|[?|[_ ?]]]; contradiction. }
  apply Hno.
  destruct (negb (arg_ring_attn a) && default (arg_ring_attn a) (arg_auto_shard_seq a));
    simpl; [discriminate|].
  destruct (alloc_cases [arg_dim a]) as [->| ->]; simpl; [|discriminate].
  destruct (alloc_cases [arg_dim_head a * arg_heads a * 3; arg_dim a]) as [->| ->];
    simpl; [|discriminate].
  destruct (alloc_cases [arg_dim a; arg_dim_head a * arg_heads a]) as [->| ->];
    simpl; discriminate.
Qed.

(** ** Masks of the default attention *)

Lemma scalars_of_of_list1 (l : list scalar) : scalars_of (of_list1 l) = Some l.
Proof.
  unfold scalars_of, of_list1. simpl. apply mapM_Some.
  induction l as [|s l IH]; constructor; done.
Qed.

Lemma list2_of_of_list2 (m : list (list scalar)) : list2_of (of_list2 m) = Some m.
Proof.
  unfold list2_of, of_list2. simpl. apply mapM_Some.
  induction m as [|s m IH]; constructor; [apply scalars_of_of_list1|done].
Qed.

Lemma list3_of_of_list3 (m : list (list (list scalar))) : list3_of (of_list3 m) = Some m.
Proof.
  unfold list3_of, of_list3. simpl. apply mapM_Some.
  induction m as [|s m IH]; constructor; [apply list2_of_of_list2|done].
Qed.

Lemma list4_of_of_list4 (m : list (list (list (list scalar)))) :
  list4_of (of_list4 m) = Some m.
Proof.
  unfold list4_of, of_list4. simpl. apply mapM_Some.
  induction m as [|s m IH]; constructor; [apply list3_of_of_list3|done].
Qed.

Lemma traverse_ext {A B : Type} (f g : A -> result B) (l : list A) :
  Forall (fun x => f x = g x) l -> traverse f l = traverse g l.
Proof.
  induction 1 as [|x l Hx _ IH]; [done|]. simpl. by rewrite Hx, IH.
Qed.

Section MaskProperties.

Variable mask_value : scalar.
Variable dotp : list scalar -> list scalar -> scalar.
Variable softmax_row : list scalar -> list scalar.
Variable wsum : list scalar -> list (list scalar) -> list scalar.

Lemma zip_with_all_true (mb : list bool) (row : list scalar) :
  Forall (fun b => b = true) mb -> length row = length mb ->
  zip_with (fun (m : bool) s => if m then s else mask_value) mb row = row.
Proof.
  intros Hall. revert row. induction Hall as [|b mb -> _ IH]; intros [|s row] Hlen;
    try done. simpl. f_equal. apply IH. simpl in Hlen. lia.
Qed.

Lemma where_mask_all_true (mb : list bool) (q k : list (list scalar)) :
  Forall (fun b => b = true) mb -> length k = length mb ->
  where_mask mask_value mb (similarity dotp q k) = similarity dotp q k.
Proof.
  intros Hall Hlen. unfold where_mask, similarity.
  rewrite <- list_fmap_compose. apply list_fmap_ext. intros _ qi _. simpl.
  apply zip_with_all_true; [done|]. by rewrite length_fmap.
Qed.


Lemma head_all_true (mb : list bool) (qh kh vh : list (list scalar)) :
  Forall (fun b => b = true) mb -> length kh = length mb ->
  (_ ← check_head false (Some mb) kh vh;
   Ok (attend mask_value dotp softmax_row wsum false (Some mb) qh kh vh))
  = (_ ← check_head false None kh vh;
     Ok (attend mask_value dotp softmax_row wsum false None qh kh vh)).
Proof.
  intros Hall Hlen. unfold check_head, attend, masked_sim.
  rewrite where_mask_all_true by done.
  rewrite Hlen, Nat.eqb_refl. reflexivity.
Qed.

Lemma attend_heads_all_true (mb : list bool) (q k v : list (list (list scalar))) :
  Forall (fun b => b = true) mb ->
  Forall (fun kh => length kh = length mb) k ->
  attend_heads mask_value dotp softmax_row wsum false (Some mb) q k v
  = attend_heads mask_value dotp softmax_row wsum false None q k v.
Proof.
  intros Hall Hk. unfold attend_heads.
  destruct (zip_same q k) as [qk|e] eqn:Hqk; [|done]. simpl.
  destruct (zip_same qk v) as [qkv|e] eqn:Hqkv; [|done]. simpl.
  apply traverse_ext.
  unfold zip_same in Hqk, Hqkv.
  destruct (Nat.eqb (length q) (length k)); [|done]. injection Hqk as <-.
  destruct (Nat.eqb (length (zip q k)) (length v)); [|done]. injection Hqkv as <-.
  revert q v. induction Hk as [|kh k Hkh _ IH]; intros [|qh q] [|vh v];
    try (by constructor).
  cbn [zip zip_with]. constructor; [|apply IH].
  by apply head_all_true.
Qed.

Lemma batches_all_true (k : list (list (list (list scalar)))) (m : list (list bool)) :
  Forall2 (fun kb mb => Forall (fun kh : list (list scalar) => length kh = length mb) kb) k m ->
  Forall (Forall (fun b => b = true)) m ->
  forall q v, length q = length k -> length v = length k ->
    traverse (fun '(q, k, v, mb) =>
                attend_heads mask_value dotp softmax_row wsum false (Some mb) q k v)
      (zip (zip (zip q k) v) m)
    = traverse (fun '(q, k, v) =>
                  attend_heads mask_value dotp softmax_row wsum false None q k v)
        (zip (zip q k) v).
Proof.
  induction 1 as [|kb mb k m Hkb _ IH]; intros Hall q v Hq Hv.
  - destruct q; [|done]. done.
  - destruct q as [|qb q]; [done|]. destruct v as [|vb v]; [done|].
    apply Forall_cons in Hall as [Hmb Hall].
    cbn [zip zip_with traverse].
    rewrite attend_heads_all_true by done.
    rewrite IH; [done|done|simpl in Hq; lia|simpl in Hv; lia].
Qed.

Lemma default_attention_lists_all_true (q k v : list (list (list (list scalar))))
    (m : list (list bool)) :
  Forall2 (fun kb mb => Forall (fun kh : list (list scalar) => length kh = length mb) kb) k m ->
  Forall (Forall (fun b => b = true)) m ->
  default_attention_lists mask_value dotp softmax_row wsum q k v (Some m) false
  = default_attention_lists mask_value dotp softmax_row wsum q k v None false.
Proof.
  intros Hk Hall. unfold default_attention_lists.
  destruct (zip_same q k) as [qk|e] eqn:Hqk; [|done].
  cbn [mbind result_mbind result_bind].
  destruct (zip_same qk v) as [qkv|e] eqn:Hqkv; [|done].
  cbn [mbind result_mbind result_bind].
  unfold zip_same in Hqk, Hqkv.
  destruct (Nat.eqb_spec (length q) (length k)) as [Hlqk|]; [|done]. injection Hqk as <-.
  destruct (Nat.eqb_spec (length (zip q k)) (length v)) as [Hlqkv|]; [|done].
  injection Hqkv as <-.
  pose proof (Forall2_length _ _ _ Hk) as Hkm.
  rewrite length_zip in Hlqkv.
  assert (Hlen : length (zip (zip q k) v) = length m).
  { rewrite !length_zip. lia. }
  unfold zip_same. rewrite Hlen, Nat.eqb_refl. cbn [mbind result_mbind result_bind].
  rewrite (batches_all_true k m Hk Hall); [done|done|lia].
Qed.

(** X8.  Without the causal flag, a key-padding mask that is [True]
    everywhere and as long as the keys changes nothing: [default_attention]
    returns what it returns without a mask. *)
Theorem default_attention_all_true_mask (q v mt : tensor)
    (k : list (list (list (list scalar)))) (m : list (list bool)) :
  bools_of mt = Some m ->
  Forall (Forall (fun b => b = true)) m ->
  Forall2 (fun kb mb => Forall (fun kh : list (list scalar) => length kh = length mb) kb) k m ->
  default_attention mask_value dotp softmax_row wsum
    (PTensor q) (PTensor (of_list4 k)) (PTensor v) (PTensor mt) false
  = default_attention mask_value dotp softmax_row wsum
      (PTensor q) (PTensor (of_list4 k)) (PTensor v) PNone false.
Proof.
  intros Hm Hall Hk. unfold default_attention.
  destruct (list4_of q) as [ql|]; [|done]. rewrite list4_of_of_list4.
  destruct (list4_of v) as [vl|]; [|done]. rewrite Hm.
  cbn [of_option mbind result_mbind result_bind fmap result_fmap].
  by rewrite default_attention_lists_all_true.
Qed.

End MaskProperties.

Lemma default_attention_all_true_mask_witness :
  default_attention (SInt 0) (fun _ _ => SInt 1) pass_softmax pass_wsum
    (PTensor (of_list4 [[[tokens [1]; tokens [2]]]]))
    (PTensor (of_list4 [[[tokens [3]; tokens [4]]]]))
    (PTensor (of_list4 [[[tokens [5]; tokens [6]]]]))
    (PTensor (of_list2 [[SBool true; SBool true]])) false
  = default_attention (SInt 0) (fun _ _ => SInt 1) pass_softmax pass_wsum
      (PTensor (of_list4 [[[tokens [1]; tokens [2]]]]))
      (PTensor (of_list4 [[[tokens [3]; tokens [4]]]]))
      (PTensor (of_list4 [[[tokens [5]; tokens [6]]]]))
      PNone false.
Proof.
  apply (default_attention_all_true_mask (SInt 0) (fun _ _ => SInt 1) pass_softmax pass_wsum
           _ _ (of_list2 [[SBool true; SBool true]]) _ [[true; true]]).
  - reflexivity.
  - repeat constructor.
  - repeat constructor.
Defined.

(** ** Rows of the causal mask *)

Section CausalRows.

Variable mask_value : scalar.
Variable dotp : list scalar -> list scalar -> scalar.

(** X9.  With the causal flag the mask is anchored at the last query: the
    last query is scored against every key, and when there are more
    queries than keys, every query [r] with [r + j < i] has all its keys
    masked. *)
Theorem causal_rows_masked_or_open (mask : option (list bool))
    (q k : list (list scalar)) (r : nat) (qr : list scalar) :
  q !! r = Some qr ->
  ((r + length k < length q)%nat ->
   masked_sim mask_value dotp true mask q k !! r
   = Some (replicate (length k) mask_value)) /\
  (S r = length q ->
   masked_sim mask_value dotp true mask q k !! r = Some (dotp qr <$> k)).
Proof.
  intros Hr. rewrite (masked_sim_causal_row mask_value dotp mask q k r qr Hr).
  split; intros Hlen; f_equal.
  - transitivity (imap (fun _ (_ : list scalar) => mask_value) k).
    + apply imap_ext. intros c kc Hc. apply lookup_lt_Some in Hc.
      unfold causal_mask. simpl.
      destruct (Z.leb_spec (Z.of_nat (length k) - Z.of_nat (length q) + 1)
                  (Z.of_nat c - Z.of_nat r)); [done|lia].
    + rewrite (imap_const (fun _ : list scalar => mask_value)). by apply const_fmap.
  - rewrite <- (imap_const (dotp qr)).
    apply imap_ext. intros c kc Hc. apply lookup_lt_Some in Hc.
    unfold causal_mask. simpl.
    destruct (Z.leb_spec (Z.of_nat (length k) - Z.of_nat (length q) + 1)
                (Z.of_nat c - Z.of_nat r)); [lia|done].
Qed.

End CausalRows.

Lemma causal_rows_masked_or_open_witness :
  ((0 + 1 < 2)%nat ->
   masked_sim (SInt 0) (fun _ _ => SInt 1) true None [tokens [1]; tokens [2]] [tokens [7]]
     !! 0%nat
   = Some (replicate 1 (SInt 0))) /\
  (1%nat = 2%nat ->
   masked_sim (SInt 0) (fun _ _ => SInt 1) true None [tokens [1]; tokens [2]] [tokens [7]]
     !! 0%nat
   = Some ((fun _ => SInt 1) <$> [tokens [7]])).
Proof.
  apply (causal_rows_masked_or_open (SInt 0) (fun _ _ => SInt 1) None
           [tokens [1]; tokens [2]] [tokens [7]] 0 (tokens [1])).
  reflexivity.
Defined.


(** ** Collectives of the forward pass *)

Lemma no_gather_lift {A : Type} (m : result A) : no_gather (lift m).
Proof. by destruct m. Qed.

Lemma no_gather_bind {A B : Type} (p : comm A) (f : A -> comm B) :
  no_gather p -> (forall a, no_gather (f a)) -> no_gather (p ≫= f).
Proof. intros Hp Hf. induction p; simpl in *; auto. Qed.

Lemma local_lift {A : Type} (m : result A) : local (lift m).
Proof. by destruct m. Qed.

Lemma local_bind {A B : Type} (p : comm A) (f : A -> comm B) :
  local p -> (forall a, local (f a)) -> local (p ≫= f).
Proof. intros Hp Hf. destruct p; simpl in *; auto. Qed.

Section ForwardCollectives.

Variable mask_value : scalar.
Variable dotp : list scalar -> list scalar -> scalar.
Variable softmax_row : list scalar -> list scalar.
Variable wsum : list scalar -> list (list scalar) -> list scalar.
Variable project_qkv : Z -> Z -> pyval -> result (pyval * pyval * pyval).
Variable project_out : pyval -> result pyval.

Lemma forward_no_gather (w : dist) (self : RingAttention) (x mask : pyval) :
  auto_shard_seq self = false ->
  no_gather (forward mask_value dotp softmax_row wsum project_qkv project_out
               w self x mask).
Proof.
  intros Hauto. unfold forward. rewrite Hauto. cbn [andb].
  apply no_gather_bind; [apply no_gather_lift|]. intros seq_len.
  apply no_gather_bind; [exact I|]. intros [[x' mask'] sizes].
  apply no_gather_bind; [apply no_gather_lift|]. intros [[q k] v].
  apply no_gather_bind.
  { destruct (negb (is_distributed w)); [apply no_gather_lift|]. simpl. done. }
  intros out. apply no_gather_bind; [apply no_gather_lift|]. intros out'.
  apply no_gather_bind; [exact I|]. intros out''. exact I.
Qed.

Lemma forward_local (w : dist) (self : RingAttention) (x mask : pyval) :
  is_distributed w = false ->
  local (forward mask_value dotp softmax_row wsum project_qkv project_out
           w self x mask).
Proof.
  intros Hw. unfold forward. rewrite Hw, !andb_false_r. cbn [negb].
  apply local_bind; [apply local_lift|]. intros seq_len.
  apply local_bind; [exact I|]. intros [[x' mask'] sizes].
  apply local_bind; [apply local_lift|]. intros [[q k] v].
  apply local_bind; [apply local_lift|].
  intros out. apply local_bind; [apply local_lift|]. intros out'.
  apply local_bind; [exact I|]. intros out''. exact I.
Qed.

Lemma forward_returns_nothing (w : dist) (self : RingAttention) (x mask : pyval) :
  auto_shard_seq self = true -> is_distributed w = true ->
  returns (fun _ => False) (sharded_batch_to_sharded_seq w x mask (ring_seq_size self)) ->
  returns (fun _ => False)
    (forward mask_value dotp softmax_row wsum project_qkv project_out w self x mask).
Proof.
  intros Hauto Hw Hshard. unfold forward. rewrite Hauto, Hw. cbn [andb negb].
  apply returns_bind, returns_lift. intros d _.
  apply returns_bind, returns_bind.
  apply (returns_impl (fun _ => False)); [done|exact Hshard].
Qed.

(** X10.  Sharded by hand: on a distributed rank, a module built without
    auto-sharding calls no gather.  Once the input has a last extent and the
    projections succeed, it calls the ring kernel once, on the queries, keys
    and values of its own input, with the mask exactly as given and its own
    flags and block sizes, and returns the projection of the answer. *)
Theorem forward_without_auto_shard (w : dist) (self : RingAttention) (x mask : pyval) :
  auto_shard_seq self = false -> is_distributed w = true ->
  match (_ ← shape_last x; project_qkv (heads self) (dim_head self) x) with
  | Ok (q, k, v) =>
      exists cont,
        forward mask_value dotp softmax_row wsum project_qkv project_out w self x mask
        = RingFlashAttnE [q; k; v; mask; PBool (causal self);
                          PInt (q_bucket_size self); PInt (k_bucket_size self);
                          PBool (ring_attn self)] cont /\
        forall out, cont out = lift (project_out out)
  | Raise e =>
      forward mask_value dotp softmax_row wsum project_qkv project_out w self x mask
      = Fail e
  end.
Proof.
  intros Hauto Hw. unfold forward. rewrite Hauto, Hw, !andb_true_r. cbn [andb negb].
  destruct (shape_last x) as [n|e]; simpl; [|done].
  destruct (project_qkv (heads self) (dim_head self) x) as [[[q k] v]|e]; simpl; [|done].
  eexists. split; [reflexivity|]. intros out. simpl. by destruct (project_out out).
Qed.

(** X11.  With auto-sharding on, a distributed rank that supplies a mask, or
    whose input's last extent is not a multiple of the shard size, never
    returns from [RingAttention.forward]: no run with such a rank
    finishes. *)
Theorem forward_auto_shard_never_returns
    (ring_kernel : list (list pyval) -> result (list pyval)) (fuel : nat)
    (ps : list (comm pyval)) (r : nat) (w : dist) (self : RingAttention)
    (t : tensor) (mask : pyval) (L : Z) :
  auto_shard_seq self = true -> is_distributed w = true ->
  shape_last (PTensor t) = Ok L ->
  (0 < ring_seq_size self /\ L mod ring_seq_size self <> 0) \/ exists_ mask = true ->
  ps !! r = Some (forward mask_value dotp softmax_row wsum project_qkv project_out
                    w self (PTensor t) mask) ->
  ~ exists vs, run_ranks ring_kernel fuel ps = Finished vs.
Proof.
  intros Hauto Hw HL Hcase Hr [vs Hrun].
  eapply never_returning_rank; [exact Hr| |exact Hrun].
  apply forward_returns_nothing; [done|done|].
  destruct Hcase as [[Hsize Hmod]|Hmask].
  - by eapply shard_with_padding_returns_nothing.
  - by apply shard_with_mask_returns_nothing.
Qed.

End ForwardCollectives.

Lemma forward_without_auto_shard_witness :
  exists cont,
    forward float64_mask_value float_dot pass_softmax pass_wsum pass_qkv pass_out
      (rank_ctx 2 0) (small_layer 2) (PTensor x_1_4_2) PNone
    = RingFlashAttnE [PTensor x_1_4_2; PTensor x_1_4_2; PTensor x_1_4_2; PNone;
                      PBool false; PInt 1; PInt 1; PBool true] cont /\
    forall out, cont out = lift (pass_out out).
Proof.
  apply (forward_without_auto_shard float64_mask_value float_dot pass_softmax pass_wsum
           pass_qkv pass_out (rank_ctx 2 0) (small_layer 2) (PTensor x_1_4_2) PNone).
  - reflexivity.
  - reflexivity.
Defined.

Lemma forward_auto_shard_never_returns_witness :
  ~ exists vs,
      run_ranks pass_ring 5
        [forward float64_mask_value float_dot pass_softmax pass_wsum pass_qkv pass_out
           (rank_ctx 2 0) module_1 (PTensor (of_list2 [tokens [1; 2]]))
           (PTensor (of_list2 [[SBool true; SBool true]]));
         forward float64_mask_value float_dot pass_softmax pass_wsum pass_qkv pass_out
           (rank_ctx 2 1) module_1 (PTensor (of_list2 [tokens [3; 4]]))
           (PTensor (of_list2 [[SBool true; SBool true]]))]
      = Finished vs.
Proof.
  apply (forward_auto_shard_never_returns float64_mask_value float_dot pass_softmax
           pass_wsum pass_qkv pass_out pass_ring 5 _ 0 (rank_ctx 2 0) module_1
           (of_list2 [tokens [1; 2]]) (PTensor (of_list2 [[SBool true; SBool true]])) 2).
  - reflexivity.
  - reflexivity.
  - reflexivity.
  - right. reflexivity.
  - reflexivity.
Defined.

(** ** Construction of the transformer *)

Lemma traverse_const_inv {A B : Type} (c : result B) (l : list A) (bs : list B) :
  traverse (fun _ => c) l = Ok bs ->
  length bs = length l /\ Forall (fun b => c = Ok b) bs.
Proof.
  revert bs. induction l as [|a l IH]; intros bs; simpl.
  - intros [= <-]. by split.
  - destruct c as [b|e] eqn:Hc; [|done]. simpl.
    destruct (traverse (fun _ => Ok b) l) as [bs'|e]; [|done]. simpl.
    intros [= <-]. destruct (IH bs' eq_refl) as [Hlen Hall].
    split; [simpl; by f_equal|]. by constructor.
Qed.

Lemma traverse_const_ok {A B : Type} (c : result B) (b : B) (l : list A) :
  c = Ok b -> traverse (fun _ => c) l = Ok (replicate (length l) b).
Proof.
  intros ->. induction l as [|a l IH]; [done|]. simpl. by rewrite IH.
Qed.

Lemma traverse_const_raise {A B : Type} (c : result B) (e : exn) (l : list A) :
  c = Raise e -> l <> [] -> traverse (fun _ => c) l = Raise e.
Proof. intros -> Hl. by destruct l. Qed.

(** What a successful construction of a transformer went through. *)
Lemma RingTransformer_init_ok (a : transformer_args) (t : RingTransformer) :
  RingTransformer_init a = Ok t ->
  t_ring_attn t = targ_ring_attn a /\
  t_ring_seq_size t = targ_ring_seq_size a /\
  t_auto_shard_seq t = default (targ_ring_attn a) (targ_auto_shard_seq a) /\
  negb (targ_ring_attn a) && default (targ_ring_attn a) (targ_auto_shard_seq a) = false /\
  length (t_layers t) = Z.to_nat (targ_depth a) /\
  Forall (fun l => RingAttention_init (layer_args a) = Ok l) (t_layers t).
Proof.
  unfold RingTransformer_init.
  destruct (negb (targ_ring_attn a) && default (targ_ring_attn a) (targ_auto_shard_seq a))
    eqn:Hflag; [discriminate|]. simpl.
  destruct (alloc [targ_num_tokens a; targ_dim a]) as [[]|]; [|discriminate]. simpl.
  destruct (traverse _ (seq 0 (Z.to_nat (targ_depth a)))) as [layers|] eqn:Hlayers;
    [|discriminate]. simpl.
  destruct (alloc [targ_dim a]) as [[]|]; [|discriminate]. simpl.
  intros [= <-]. simpl.
  apply traverse_const_inv in Hlayers as [Hlen Hall]. rewrite length_seq in Hlen.
  repeat split; try done.
  eapply Forall_impl; [exact Hall|]. intros l Hl. simpl in Hl.
  destruct (RingAttention_init (layer_args a)) as [m|]; [|done]. simpl in Hl.
  destruct (FeedForward _ _) as [[]|]; [|done]. simpl in Hl. congruence.
Qed.

(** X12.  The layers of a transformer: whenever [RingTransformer.__init__]
    returns, there are [depth] attention layers (none for a negative
    [depth]); each is a module [RingAttention.__init__] accepts, has
    auto-sharding off whatever the transformer was asked for, and shares the
    ring attention flag and the shard size of the transformer; and the
    transformer itself shards only with ring attention. *)
Theorem RingTransformer_init_layers (a : transformer_args) (t : RingTransformer) :
  RingTransformer_init a = Ok t ->
  length (t_layers t) = Z.to_nat (targ_depth a) /\
  Forall (fun l => RingAttention_init (layer_args a) = Ok l /\
                   auto_shard_seq l = false /\
                   ring_attn l = t_ring_attn t /\
                   ring_seq_size l = t_ring_seq_size t) (t_layers t) /\
  t_auto_shard_seq t = default (targ_ring_attn a) (targ_auto_shard_seq a) /\
  (t_auto_shard_seq t = true -> t_ring_attn t = true).
Proof.
  intros H.
  destruct (RingTransformer_init_ok a t H) as (Hring & Hsize & Hauto & Hflag & Hlen & Hall).
  repeat split; try done.
  - eapply Forall_impl; [exact Hall|]. intros l Hl. simpl.
    destruct (RingAttention_init_ok _ _ Hl) as (-> & _). simpl.
    by rewrite Hring, Hsize.
  - rewrite Hauto, Hring. intros Hd. rewrite Hd in Hflag.
    destruct (targ_ring_attn a); [done|discriminate].
Qed.

Lemma RingTransformer_init_layers_witness :
  length (t_layers (small_model 2)) = Z.to_nat 2 /\
  Forall (fun l => RingAttention_init (layer_args (small_transformer 2 2)) = Ok l /\
                   auto_shard_seq l = false /\
                   ring_attn l = t_ring_attn (small_model 2) /\
                   ring_seq_size l = t_ring_seq_size (small_model 2))
    (t_layers (small_model 2)) /\
  t_auto_shard_seq (small_model 2) = default true None /\
  (t_auto_shard_seq (small_model 2) = true -> t_ring_attn (small_model 2) = true).
Proof.
  apply (RingTransformer_init_layers (small_transformer 2 2) (small_model 2)).
  reflexivity.
Defined.

Lemma layer_init_cases (a : transformer_args) :
  positive_transformer_sizes a ->
  (~ (targ_q_bucket_size a | targ_ring_seq_size a) \/
   ~ (targ_k_bucket_size a | targ_ring_seq_size a)) /\
  RingAttention_init (layer_args a) = Raise AssertionError
  \/
  (targ_q_bucket_size a | targ_ring_seq_size a) /\
  (targ_k_bucket_size a | targ_ring_seq_size a) /\
  exists m, RingAttention_init (layer_args a) = Ok m.
Proof.
  intros (Hnt & Hdim & Hdh & Hh & Hff & Hq & Hk).
  unfold RingAttention_init. cbn [layer_args arg_dim arg_dim_head arg_heads arg_causal
    arg_q_bucket_size arg_k_bucket_size arg_ring_attn arg_ring_seq_size arg_auto_shard_seq].
  destruct (Z.eqb_spec (targ_dim_head a) 0) as [?|_]; [lia|].
  cbn [mbind result_mbind result_bind].
  destruct (divisible_by_spec (targ_ring_seq_size a) (targ_q_bucket_size a) Hq)
    as [[-> Hdq]|[-> Hdq]]; cbn [mbind result_mbind result_bind py_assert];
    [|left; split; [by left|done]].
  destruct (divisible_by_spec (targ_ring_seq_size a) (targ_k_bucket_size a) Hk)
    as [[-> Hdk]|[-> Hdk]]; cbn [mbind result_mbind result_bind py_assert];
    [|left; split; [by right|done]].
  right. split; [done|]. split; [done|].
  cbn [default]. rewrite andb_false_r. cbn [negb mbind result_mbind result_bind].
  rewrite !alloc_nonneg by (repeat constructor; nia).
  cbn [mbind result_mbind result_bind]. eauto.
Qed.

Lemma FeedForward_nonneg (dim mult : Z) :
  0 <= dim -> 0 <= mult -> FeedForward dim mult = Ok tt.
Proof.
  intros Hdim Hmult. unfold FeedForward.
  rewrite !alloc_nonneg by (repeat constructor; nia). done.
Qed.

(** X13.  For positive sizes, [RingTransformer.__init__] fails an assertion
    exactly on a configuration error, and otherwise returns a transformer of
    [depth] layers.  The divisibility of the shard size by the block sizes is
    checked by the layers only: a transformer without layers is built
    whatever the block sizes are. *)
Theorem RingTransformer_init_fails_iff (a : transformer_args) :
  positive_transformer_sizes a ->
  (RingTransformer_init a = Raise AssertionError <-> transformer_config_error a) /\
  (~ transformer_config_error a ->
   exists t, RingTransformer_init a = Ok t /\
             length (t_layers t) = Z.to_nat (targ_depth a)).
Proof.
  intros Hpos. pose proof Hpos as (Hnt & Hdim & Hdh & Hh & Hff & Hq & Hk).
  unfold transformer_config_error, RingTransformer_init.
  destruct (negb (targ_ring_attn a) && default (targ_ring_attn a) (targ_auto_shard_seq a))
    eqn:Hflag; cbn [py_assert negb mbind result_mbind result_bind].
  { assert (Herr : targ_auto_shard_seq a = Some true /\ targ_ring_attn a = false).
    { destruct (targ_ring_attn a); [done|]. by destruct (targ_auto_shard_seq a) as [[]|]. }
    split; [split; [by left|done]|]. intros Hno. destruct Hno. by left. }
  assert (Hnoflag : ~ (targ_auto_shard_seq a = Some true /\ targ_ring_attn a = false)).
  { intros [Ha Hr]. rewrite Ha, Hr in Hflag. done. }
  rewrite !alloc_nonneg by (repeat constructor; lia).
  cbn [mbind result_mbind result_bind].
  destruct (Z.to_nat (targ_depth a)) as [|n] eqn:Hdepth.
  { cbn [seq traverse mbind result_mbind result_bind].
    split; [split; [done|]|].
    - intros [?|[? _]]; [done|lia].
    - intros _. eexists. split; [reflexivity|done]. }
  assert (Hd : 0 < targ_depth a) by lia.
  destruct (layer_init_cases a Hpos) as [[Hdiv Hinit]|(Hdq & Hdk & m & Hinit)].
  - rewrite (traverse_const_raise _ AssertionError); [|by rewrite Hinit|done].
    cbn [mbind result_mbind result_bind].
    split; [split; [by right|done]|]. intros Hno. destruct Hno. by right.
  - rewrite (traverse_const_ok _ m).
    2:{ rewrite Hinit. cbn [mbind result_mbind result_bind].
        rewrite FeedForward_nonneg by lia. done. }
    cbn [mbind result_mbind result_bind].
    split; [split; [done|]|].
    + intros [?|[_ [?|?]]]; done.
    + intros _. eexists. split; [reflexivity|]. simpl.
      by rewrite length_replicate, length_seq.
Qed.

Lemma RingTransformer_init_fails_iff_witness :
  (RingTransformer_init (small_transformer 0 3) = Raise AssertionError
   <-> transformer_config_error (small_transformer 0 3)) /\
  (~ transformer_config_error (small_transformer 0 3) ->
   exists t, RingTransformer_init (small_transformer 0 3) = Ok t /\
             length (t_layers t) = Z.to_nat (targ_depth (small_transformer 0 3))).
Proof.
  apply (RingTransformer_init_fails_iff (small_transformer 0 3)).
  unfold positive_transformer_sizes. simpl. lia.
Defined.


(** ** Collectives of the transformer *)

Lemma RingTransformer_forward_returns_nothing (body : pyval -> pyval -> comm pyval)
    (w : dist) (size : Z) (x mask : pyval) :
  is_distributed w = true ->
  returns (fun _ => False) (sharded_batch_to_sharded_seq w x mask size) ->
  returns (fun _ => False) (RingTransformer_forward body w true size x mask).
Proof.
  intros Hw Hshard. unfold RingTransformer_forward. rewrite Hw. cbn [andb].
  apply returns_bind, returns_lift. intros d _.
  apply returns_bind, returns_bind.
  apply (returns_impl (fun _ => False)); [done|exact Hshard].
Qed.

(** ** The round trip when padding is needed *)

(** C1: the round trip does not reconstruct inputs whose length is not a
    multiple of the shard size.  Whenever the sequences of some rank have a
    length that is not a multiple of a positive shard size, the forward
    conversion raises on that rank: line 104 binds the pair
    [pad_to_multiple] returns to [mask], and the gather of the mask is
    handed that pair.  So no run of the round trip finishes, with any
    number of ranks and whatever the other ranks hold, and nothing is
    reconstructed. *)
Theorem roundtrip_fails_when_padding_needed
    (ring_kernel : list (list pyval) -> result (list pyval))
    (g : scalar -> list scalar) (size : Z) (xs : list (list (list scalar)))
    (r L : nat) (m : list (list scalar)) :
  xs !! r = Some m -> token_rows L m -> 0 < size -> Z.of_nat L mod size <> 0 ->
  (forall fuel, ~ exists vs,
      run_ranks ring_kernel fuel (transformer_world g size xs) = Finished vs) /\
  ~ roundtrip_reconstructs ring_kernel g size xs.
Proof.
  intros Hr Hm Hsize Hmod.
  assert (Hnever : forall fuel vs,
            run_ranks ring_kernel fuel (transformer_world g size xs) <> Finished vs).
  { intros fuel vs. eapply (never_returning_rank ring_kernel fuel _ r).
    - unfold transformer_world. rewrite list_lookup_imap, Hr. reflexivity.
    - apply RingTransformer_forward_returns_nothing; [reflexivity|].
      eapply shard_with_padding_returns_nothing; [|exact Hsize|exact Hmod].
      by apply shape_last_token_rows. }
  split.
  - intros fuel [vs Hrun]. by eapply Hnever.
  - unfold roundtrip_reconstructs. apply Hnever.
Qed.

Lemma roundtrip_fails_when_padding_needed_witness :
  (forall fuel, ~ exists vs,
      run_ranks no_ring fuel (transformer_world unsqueeze 2 world_3) = Finished vs) /\
  ~ roundtrip_reconstructs no_ring unsqueeze 2 world_3.
Proof.
  apply (roundtrip_fails_when_padding_needed no_ring unsqueeze 2 world_3 0 3
           [tokens [1; 2; 3]]).
  - reflexivity.
  - split; [discriminate|]. repeat constructor.
  - lia.
  - discriminate.
Defined.

(** Two ranks, shard size two, sequences of length three: padded to length
    four the sequences have two chunks, as many as there are ranks, and the
    round trip raises an [AttributeError]. *)
Example roundtrip_world_3_raises :
  (p ← pad_to_multiple (PTensor (of_list2 [tokens [1; 2; 3]])) 2 (SInt 0);
   '(x, _) ← unpack2 p;
   chunks ← py_split x 2 (-1);
   len chunks)
  = Ok (Z.of_nat (length world_3)) /\
  run_ranks no_ring 2 (transformer_world unsqueeze 2 world_3) = Raised AttributeError.
Proof. split; reflexivity. Qed.

Section TransformerCollectives.

Variable mask_value : scalar.
Variable dotp : list scalar -> list scalar -> scalar.
Variable softmax_row : list scalar -> list scalar.
Variable wsum : list scalar -> list (list scalar) -> list scalar.
Variable token_emb : pyval -> result pyval.
Variable layer_qkv : nat -> Z -> Z -> pyval -> result (pyval * pyval * pyval).
Variable layer_out : nat -> pyval -> result pyval.
Variable layer_ff : nat -> pyval -> result pyval.
Variable tensor_add : pyval -> pyval -> result pyval.
Variable to_logits : pyval -> result pyval.

Lemma transformer_layers_no_gather (w : dist) (layers : list RingAttention) (mask : pyval) :
  Forall (fun l => auto_shard_seq l = false) layers ->
  forall i x,
    no_gather (transformer_layers mask_value dotp softmax_row wsum layer_qkv layer_out
                 layer_ff tensor_add w i layers x mask).
Proof.
  induction 1 as [|l layers Hl _ IH]; intros i x; cbn [transformer_layers]; [exact I|].
  apply no_gather_bind; [by apply forward_no_gather|]. intros a.
  apply no_gather_bind; [apply no_gather_lift|]. intros x1.
  apply no_gather_bind; [apply no_gather_lift|]. intros f.
  apply no_gather_bind; [apply no_gather_lift|]. intros x2.
  apply IH.
Qed.

Lemma transformer_layers_local (w : dist) (layers : list RingAttention) (mask : pyval) :
  is_distributed w = false ->
  forall i x,
    local (transformer_layers mask_value dotp softmax_row wsum layer_qkv layer_out
             layer_ff tensor_add w i layers x mask).
Proof.
  intros Hw. induction layers as [|l layers IH]; intros i x; cbn [transformer_layers];
    [exact I|].
  apply local_bind; [by apply forward_local|]. intros a.
  apply local_bind; [apply local_lift|]. intros x1.
  apply local_bind; [apply local_lift|]. intros f.
  apply local_bind; [apply local_lift|]. intros x2.
  apply IH.
Qed.

(** X14.  The layers of a transformer never reshard: whatever the flags the
    transformer was built with, and on every rank, lines 320-326 of
    [RingTransformer.forward] (the embedding, the layers and the projection
    to logits) wait at no all-gather.  The only gathers of a forward pass
    are the two conversions of [RingTransformer.forward] itself. *)
Theorem transformer_layers_never_gather (a : transformer_args) (t : RingTransformer)
    (w : dist) (x mask : pyval) :
  RingTransformer_init a = Ok t ->
  no_gather (transformer_net mask_value dotp softmax_row wsum token_emb layer_qkv
               layer_out layer_ff tensor_add to_logits w (t_layers t) x mask).
Proof.
  intros H.
  destruct (RingTransformer_init_ok a t H) as (_ & _ & _ & _ & _ & Hall).
  unfold transformer_net.
  apply no_gather_bind; [apply no_gather_lift|]. intros x1.
  apply no_gather_bind; [|intros x2; apply no_gather_lift].
  apply transformer_layers_no_gather.
  eapply Forall_impl; [exact Hall|]. intros l Hl. simpl.
  by destruct (RingAttention_init_ok _ _ Hl) as (-> & _).
Qed.

(** X15.  In a single process [RingTransformer.forward] takes part in no
    collective, whatever flags the transformer and its layers have: it
    neither gathers nor calls the ring kernel. *)
Theorem RingTransformer_call_not_distributed (w : dist) (self : RingTransformer)
    (x mask : pyval) :
  is_distributed w = false ->
  local (RingTransformer_call mask_value dotp softmax_row wsum token_emb layer_qkv
           layer_out layer_ff tensor_add to_logits w self x mask).
Proof.
  intros Hw. unfold RingTransformer_call, RingTransformer_forward.
  rewrite Hw, andb_false_r.
  apply local_bind; [apply local_lift|]. intros seq_len.
  apply local_bind; [exact I|]. intros [[x' mask'] sizes].
  apply local_bind.
  { unfold transformer_net.
    apply local_bind; [apply local_lift|]. intros x1.
    apply local_bind; [|intros x2; apply local_lift].
    by apply transformer_layers_local. }
  intros logits. apply local_bind; [exact I|]. intros logits'. exact I.
Qed.

(** X16.  With auto-sharding on, a distributed rank that supplies a mask, or
    whose sequence length is not a multiple of the shard size, never returns
    from [RingTransformer.forward]: no run with such a rank finishes. *)
Theorem RingTransformer_call_never_returns
    (ring_kernel : list (list pyval) -> result (list pyval)) (fuel : nat)
    (ps : list (comm pyval)) (r : nat) (w : dist) (self : RingTransformer)
    (t : tensor) (mask : pyval) (L : Z) :
  t_auto_shard_seq self = true -> is_distributed w = true ->
  shape_last (PTensor t) = Ok L ->
  (0 < t_ring_seq_size self /\ L mod t_ring_seq_size self <> 0) \/ exists_ mask = true ->
  ps !! r = Some (RingTransformer_call mask_value dotp softmax_row wsum token_emb
                    layer_qkv layer_out layer_ff tensor_add to_logits
                    w self (PTensor t) mask) ->
  ~ exists vs, run_ranks ring_kernel fuel ps = Finished vs.
Proof.
  intros Hauto Hw HL Hcase Hr [vs Hrun].
  eapply never_returning_rank; [exact Hr| |exact Hrun].
  unfold RingTransformer_call. rewrite Hauto.
  apply RingTransformer_forward_returns_nothing; [done|].
  destruct Hcase as [[Hsize Hmod]|Hmask].
  - by eapply shard_with_padding_returns_nothing.
  - by apply shard_with_mask_returns_nothing.
Qed.

End TransformerCollectives.

Lemma transformer_layers_never_gather_witness :
  no_gather (transformer_net float64_mask_value float_dot pass_softmax pass_wsum pass_out
               pass_layer_qkv pass_layer_out pass_layer_ff pass_add pass_out
               (rank_ctx 2 0) (t_layers (small_model 2))
               (PTensor x_1_4_2) PNone).
Proof.
  apply (transformer_layers_never_gather float64_mask_value float_dot pass_softmax pass_wsum
           pass_out pass_layer_qkv pass_layer_out pass_layer_ff pass_add pass_out
           (small_transformer 2 2) (small_model 2)).
  reflexivity.
Defined.

Lemma RingTransformer_call_not_distributed_witness :
  local (RingTransformer_call float64_mask_value float_dot pass_softmax pass_wsum pass_out
           pass_layer_qkv pass_layer_out pass_layer_ff pass_add pass_out
           single_process (small_model 2) (PTensor x_1_4_2) PNone).
Proof.
  apply (RingTransformer_call_not_distributed float64_mask_value float_dot pass_softmax
           pass_wsum pass_out pass_layer_qkv pass_layer_out pass_layer_ff pass_add pass_out
           single_process (small_model 2)).
  reflexivity.
Defined.

Lemma RingTransformer_call_never_returns_witness :
  ~ exists vs,
      run_ranks pass_ring 8
        (imap (fun r m =>
                 RingTransformer_call float64_mask_value float_dot pass_softmax pass_wsum
                   pass_out pass_layer_qkv pass_layer_out pass_layer_ff pass_add pass_out
                   (rank_ctx 2 r) (small_model 2) (PTensor (of_list2 m)) PNone) world_3)
      = Finished vs.
Proof.
  apply (RingTransformer_call_never_returns float64_mask_value float_dot pass_softmax
           pass_wsum pass_out pass_layer_qkv pass_layer_out pass_layer_ff pass_add pass_out
           pass_ring 8 _ 0 (rank_ctx 2 0) (small_model 2)
           (of_list2 [tokens [1; 2; 3]]) PNone 3).
  - reflexivity.
  - reflexivity.
  - reflexivity.
  - left. simpl. split; [lia|discriminate].
  - reflexivity.
Defined.


(** ** From sequence shards back to batches *)

Lemma tolist_batch_sizes3 (outs : list (list (list (list scalar)))) :
  tolist (batch_sizes3 outs) = Ok ((fun o => Z.of_nat (length o)) <$> outs).
Proof.
  unfold tolist, batch_sizes3.
  replace (mapM _ _)
    with (Some ((fun o : list (list (list scalar)) => Z.of_nat (length o)) <$> outs));
    [done|].
  symmetry. apply mapM_Some. induction outs; simpl; constructor; auto.
Qed.

Lemma split_sizes_list3 (outs : list (list (list (list scalar)))) :
  torch_split_with_sizes (of_list3 (concat outs))
    ((fun o => Z.of_nat (length o)) <$> outs) 0
  = Ok (of_list3 <$> outs).
Proof.
  unfold torch_split_with_sizes.
  assert (Hax : resolve_axis (of_list3 (concat outs)) 0 = Ok 0%nat).
  { unfold resolve_axis, of_list3. by destruct (concat outs). }
  rewrite Hax. cbn [mbind result_mbind result_bind].
  rewrite size_at0_of_list3, sum_lengths.
  rewrite Z.eqb_refl, andb_true_r.
  replace (forallb _ _) with true.
  2: { symmetry. apply forallb_forall. intros z Hz. apply list_elem_of_In in Hz.
       apply list_elem_of_fmap in Hz as (m & -> & _). apply Z.leb_le. lia. }
  f_equal. rewrite <- list_fmap_compose.
  assert (Hnat : Z.to_nat ∘ (fun o : list (list (list scalar)) => Z.of_nat (length o)) <$> outs
                 = length <$> outs).
  { apply list_fmap_ext. intros _ m _. simpl. lia. }
  rewrite Hnat.
  transitivity (of_list3 <$> ((fun '(start, n) => take n (drop start ([] ++ concat outs)))
                               <$> offsets (length (@nil (list (list scalar)))) (length <$> outs))).
  - rewrite <- !list_fmap_compose. apply list_fmap_ext. intros _ [start n] _. simpl.
    by rewrite narrow0_of_list3.
  - by rewrite offsets_pieces.
Qed.

Lemma fmap_lookup_seq {X : Type} (d : X) (l : list X) :
  (fun b => default d (l !! b)) <$> seq 0 (length l) = l.
Proof.
  apply list_eq. intros i. rewrite list_lookup_fmap.
  destruct (l !! i) as [x|] eqn:Hi.
  - rewrite lookup_seq_lt by (by eapply lookup_lt_Some). simpl. by rewrite Hi.
  - apply lookup_ge_None in Hi. by rewrite lookup_seq_ge.
Qed.

Lemma all_gather_seq (B : nat) (Ys : list (list (list (list scalar)))) :
  Ys <> [] -> (0 < B)%nat ->
  Forall (fun Y => length Y = B /\ Forall (fun row => row <> []) Y) Ys ->
  exists sizes,
    all_gather_spec (-2) (of_list3 <$> Ys)
    = Ok (PTuple [PTensor (of_list3 (join_seq B Ys)); sizes]).
Proof.
  intros Hne HB Hall. unfold all_gather_spec.
  destruct (of_list3 <$> Ys) as [|t0 ts] eqn:Hts.
  { by destruct Ys. }
  assert (Hax : resolve_axis t0 (-2) = Ok 1%nat).
  { destruct Ys as [|Y0 Ys']; [done|]. injection Hts as <- _.
    apply Forall_cons in Hall as [[Hlen Hrows] _].
    destruct Y0 as [|row Y0]; [simpl in Hlen; lia|].
    apply Forall_cons in Hrows as [Hrow _].
    unfold resolve_axis. by rewrite ndim_of_list3. }
  rewrite Hax. cbn [mbind result_mbind result_bind]. rewrite <- Hts.
  assert (Hshards : of_list3 <$> Ys
                    = (fun Y : list (list (list scalar)) =>
                         of_list3 ((fun b => default [] (Y !! b)) <$> seq 0 B)) <$> Ys).
  { apply list_fmap_ext. intros i Y Hi. rewrite Forall_lookup in Hall.
    destruct (Hall i Y Hi) as [<- _]. by rewrite fmap_lookup_seq. }
  rewrite Hshards.
  rewrite (cat1_of_list3 (fun (Y : list (list (list scalar))) b => default [] (Y !! b)))
    by done.
  cbn [of_option mbind result_mbind result_bind]. by eexists.
Qed.

Lemma piece_sizes_list3 (outs : list (list (list (list scalar)))) :
  Nd ((fun v => Sc (piece_size v)) <$> (PTensor <$> (of_list3 <$> outs)))
  = batch_sizes3 outs.
Proof.
  unfold batch_sizes3. f_equal. rewrite <- !list_fmap_compose.
  apply list_fmap_ext. intros _ o _. simpl. by rewrite size_at0_of_list3.
Qed.

Lemma unshard_at_gather (w : dist) (Y : list (list (list scalar)))
    (outs : list (list (list (list scalar)))) (o : list (list (list scalar))) :
  outs !! get_rank w = Some o ->
  exists k,
    sharded_seq_to_sharded_batch w (PTensor (of_list3 Y)) (PTensor (batch_sizes3 outs))
    = AllGatherE (-2) (of_list3 Y) k /\
    forall sizes,
      k (PTuple [PTensor (of_list3 (concat outs)); sizes])
      = Done (PTuple [PTensor (of_list3 o); PTensor (batch_sizes3 outs)]).
Proof.
  intros Hr. unfold sharded_seq_to_sharded_batch.
  cbn [AllGather lift mbind comm_mbind comm_bind].
  eexists. split; [reflexivity|]. intros sizes.
  cbn [lift mbind comm_mbind comm_bind unpack2 result_mbind result_bind mret comm_mret
       py_split_sizes].
  rewrite tolist_batch_sizes3.
  cbn [lift mbind comm_mbind comm_bind unpack2 result_mbind result_bind mret comm_mret].
  rewrite split_sizes_list3.
  cbn [lift mbind comm_mbind comm_bind unpack2 result_mbind result_bind mret comm_mret].
  unfold split_by_rank, py_index.
  rewrite !list_lookup_fmap, Hr.
  cbn [fmap option_fmap option_map of_option lift mbind comm_mbind comm_bind
       result_mbind result_bind mret comm_mret].
  by rewrite piece_sizes_list3.
Qed.

(** X17.  [sharded_seq_to_sharded_batch] on its own: every rank holds a shard
    [b n_k d] of the same [b] batch rows, with at least one position.  When
    the shards joined along the sequence axis are the batches [outs] of the
    ranks one after the other, and the sizes handed in are the batch extents
    of [outs], the run finishes after one gather and rank [r] receives
    exactly [outs_r], the full sequences of its own batch rows, as the first
    component of the pair it returns. *)
Theorem sharded_seq_to_sharded_batch_spec
    (ring_kernel : list (list pyval) -> result (list pyval))
    (Ys outs : list (list (list (list scalar)))) :
  Ys <> [] -> length outs = length Ys -> concat outs <> [] ->
  Forall (fun Y => length Y = length (concat outs) /\ Forall (fun row => row <> []) Y) Ys ->
  join_seq (length (concat outs)) Ys = concat outs ->
  exists rest,
    run_ranks ring_kernel 1 (unshard_world Ys outs)
    = Finished ((fun o => PTuple [PTensor (of_list3 o); rest]) <$> outs).
Proof.
  intros Hne Hlen HB Hall Hjoin. exists (PTensor (batch_sizes3 outs)).
  assert (HB' : (0 < length (concat outs))%nat).
  { destruct (concat outs); [done|simpl; lia]. }
  destruct (all_gather_seq _ Ys Hne HB' Hall) as [sizes Hg]. rewrite Hjoin in Hg.
  set (progs := unshard_world Ys outs).
  set (v := PTuple [PTensor (of_list3 (concat outs)); sizes]) in *.
  assert (Hhead : forall r Y, Ys !! r = Some Y ->
            exists o k, outs !! r = Some o /\ progs !! r = Some (AllGatherE (-2) (of_list3 Y) k) /\
              k v = Done (PTuple [PTensor (of_list3 o); PTensor (batch_sizes3 outs)])).
  { intros r Y Hr.
    destruct (lookup_lt_is_Some_2 outs r) as [o Ho].
    { rewrite Hlen. by eapply lookup_lt_Some. }
    destruct (unshard_at_gather (rank_ctx (length Ys) r) Y outs o Ho) as (k & Hk & Hcont).
    exists o, k. split; [done|]. split; [|apply Hcont].
    unfold progs, unshard_world. rewrite list_lookup_imap, Hr. simpl. by rewrite Hk. }
  assert (Hts : gather_tensor <$> progs = of_list3 <$> Ys).
  { apply list_eq. intros r. rewrite !list_lookup_fmap.
    destruct (Ys !! r) as [Y|] eqn:Hr.
    - destruct (Hhead r Y Hr) as (o & k & _ & -> & _). done.
    - unfold progs, unshard_world. by rewrite list_lookup_imap, Hr. }
  assert (Hks : (fun p => gather_cont p v) <$> progs
                = Done <$> ((fun o => PTuple [PTensor (of_list3 o); PTensor (batch_sizes3 outs)])
                              <$> outs)).
  { apply list_eq. intros r. rewrite !list_lookup_fmap.
    destruct (Ys !! r) as [Y|] eqn:Hr.
    - destruct (Hhead r Y Hr) as (o & k & -> & -> & Hk). simpl. by rewrite Hk.
    - unfold progs, unshard_world. rewrite list_lookup_imap, Hr. simpl.
      apply lookup_ge_None in Hr. rewrite <- Hlen in Hr.
      apply lookup_ge_None in Hr. by rewrite Hr. }
  rewrite (run_ranks_gather _ 0 (-2)).
  - rewrite Hts, Hg. rewrite Hks. apply run_ranks_done.
  - unfold progs, unshard_world. by destruct Ys.
  - apply Forall_lookup. intros r p Hp.
    destruct (Ys !! r) as [Y|] eqn:Hr.
    + destruct (Hhead r Y Hr) as (o & k & _ & Hpr & _).
      rewrite Hpr in Hp. injection Hp as <-. by eexists _, _.
    + unfold progs, unshard_world in Hp. by rewrite list_lookup_imap, Hr in Hp.
Qed.

Lemma sharded_seq_to_sharded_batch_spec_witness :
  exists rest,
    run_ranks no_ring 1
      (unshard_world
         [[[tokens [1]; tokens [2]]; [tokens [5]; tokens [6]]];
          [[tokens [3]; tokens [4]]; [tokens [7]; tokens [8]]]]
         [[[tokens [1]; tokens [2]; tokens [3]; tokens [4]]];
          [[tokens [5]; tokens [6]; tokens [7]; tokens [8]]]])
    = Finished
        ((fun o => PTuple [PTensor (of_list3 o); rest])
           <$> [[[tokens [1]; tokens [2]; tokens [3]; tokens [4]]];
                [[tokens [5]; tokens [6]; tokens [7]; tokens [8]]]]).
Proof.
  apply (sharded_seq_to_sharded_batch_spec no_ring).
  - discriminate.
  - reflexivity.
  - discriminate.
  - repeat constructor; discriminate.
  - reflexivity.
Defined.

(** ** The shards of the forward conversion *)

Lemma cat0_of_list1 (ls : list (list scalar)) :
  cat 0 (of_list1 <$> ls) = Some (of_list1 (concat ls)).
Proof.
  cbn [cat].
  assert (Hr : mapM rows (of_list1 <$> ls)
               = Some ((fun l : list scalar => Sc <$> l) <$> ls)).
  { apply mapM_Some. induction ls as [|l ls IH]; [constructor|].
    rewrite !fmap_cons. by constructor. }
  rewrite Hr. cbn [mbind option_bind]. unfold of_list1.
  by rewrite concat_fmap_rows.
Qed.

Lemma cat1_of_list2 {K : Type} (F : K -> list scalar -> list scalar)
    (ks : list K) (M : list (list scalar)) :
  ks <> [] ->
  cat 1 ((fun k => of_list2 (F k <$> M)) <$> ks)
  = Some (of_list2 ((fun row => concat ((fun k => F k row) <$> ks)) <$> M)).
Proof.
  intros Hne. rewrite cat_succ.
  assert (Hrows : mapM rows ((fun k => of_list2 (F k <$> M)) <$> ks)
                  = Some ((fun k => (fun row => of_list1 (F k row)) <$> M) <$> ks)).
  { apply mapM_Some. clear Hne. induction ks as [|k ks IH]; [constructor|].
    rewrite !fmap_cons. constructor; [|done].
    unfold of_list2. simpl. by rewrite <- list_fmap_compose. }
  rewrite Hrows. cbn [mbind option_bind].
  assert (Hhd : length (default [] (head ((fun k => (fun row => of_list1 (F k row)) <$> M) <$> ks)))
                = length M).
  { destruct ks; [done|]. simpl. by rewrite length_fmap. }
  rewrite Hhd, (transpose_fmap (fun k row => of_list1 (F k row))). cbn [mbind option_bind].
  assert (Hcols : mapM (cat 0) ((fun row => (fun k => of_list1 (F k row)) <$> ks) <$> M)
                  = Some ((fun row => of_list1 (concat ((fun k => F k row) <$> ks))) <$> M)).
  { apply mapM_Some. clear. induction M as [|row M IH]; [constructor|].
    rewrite !fmap_cons. constructor; [|done].
    rewrite <- cat0_of_list1. by rewrite <- list_fmap_compose. }
  rewrite Hcols. unfold of_list2. simpl. by rewrite <- list_fmap_compose.
Qed.

(** X18.  The shards of [sharded_batch_to_sharded_seq] tile the gathered
    batch: when every rank holds sequences of length [W * size] in a run of
    [W] ranks, the run finishes, every rank receives the same batch sizes
    and no mask, its shard has all the gathered batch rows and [size]
    positions, and the shards of the ranks joined along the sequence axis
    in rank order are the batches of the ranks one after the other. *)
Theorem shards_tile_the_batch (ring_kernel : list (list pyval) -> result (list pyval))
    (xs : list (list (list scalar))) (size : nat) :
  xs <> [] -> (0 < size)%nat -> Forall (token_rows (length xs * size)) xs ->
  exists shards,
    run_ranks ring_kernel 1 (shard_world (Z.of_nat size) xs)
    = Finished ((fun t => PTuple [PTuple [PTensor t; PNone]; PTensor (batch_sizes xs)])
                  <$> shards) /\
    length shards = length xs /\
    Forall (fun t => shape t = [length (concat xs); size]) shards /\
    cat 1 shards = Some (of_list2 (concat xs)).
Proof.
  intros Hne Hsize Hall.
  assert (HW : (0 < length xs)%nat) by (destruct xs; [done|simpl; lia]).
  pose proof (token_rows_concat _ _ Hne Hall) as HM.
  exists ((fun r => of_list2 (chunk size r <$> concat xs)) <$> seq 0 (length xs)).
  split; [|split; [|split]].
  - rewrite (shard_world_spec ring_kernel xs size (length xs)) by done.
    rewrite Nat.eqb_refl. f_equal.
    apply list_eq. intros r. rewrite list_lookup_imap, !list_lookup_fmap.
    destruct (xs !! r) as [m|] eqn:Hr; simpl.
    + by rewrite lookup_seq_lt by (by eapply lookup_lt_Some).
    + apply lookup_ge_None in Hr. by rewrite lookup_seq_ge.
  - by rewrite length_fmap, length_seq.
  - apply Forall_fmap, Forall_forall. intros r Hr. cbv [compose].
    apply elem_of_seq in Hr.
    assert (Hrows : token_rows size (chunk size r <$> concat xs)).
    { destruct HM as [HM Hrows]. split; [by destruct (concat xs)|].
      apply Forall_fmap. eapply Forall_impl; [exact Hrows|]. intros row Hrow. simpl.
      unfold chunk. rewrite length_take, length_drop, Hrow.
      assert (Hle : (S r * size <= length xs * size)%nat)
        by (apply Nat.mul_le_mono_r; lia).
      simpl in Hle. lia. }
    destruct (token_rows_shape _ _ Hrows) as [-> _]. by rewrite length_fmap.
  - rewrite (cat1_of_list2 (chunk size)) by (destruct xs; [done|simpl; discriminate]).
    do 2 f_equal. rewrite <- (list_fmap_id (concat xs)) at 2.
    apply list_fmap_ext. intros i row Hi. simpl.
    destruct HM as [_ Hrows]. rewrite Forall_lookup in Hrows.
    apply concat_chunks. eauto.
Qed.

Lemma shards_tile_the_batch_witness :
  exists shards,
    run_ranks no_ring 1 (shard_world (Z.of_nat 2) world_4)
    = Finished ((fun t => PTuple [PTuple [PTensor t; PNone]; PTensor (batch_sizes world_4)])
                  <$> shards) /\
    length shards = length world_4 /\
    Forall (fun t => shape t = [length (concat world_4); 2%nat]) shards /\
    cat 1 shards = Some (of_list2 (concat world_4)).
Proof.
  apply (shards_tile_the_batch no_ring world_4 2).
  - discriminate.
  - lia.
  - exact world_4_rows.
Defined.
